(** * Connection Depth Analyzer: a shallow embedding of [analyzer.py]

    The development follows the source file top to bottom:
    - [PyStr]: the few [str] methods the program calls ([lower], [strip],
      [split], [join], decimal formatting);
    - [Re]: the fragment of Python's [re] the pattern tables use, as a
      backtracking matcher, and a compiler from the pattern text;
    - [PyNum]: Python's [int]/[float] arithmetic on IEEE-754 binary64
      values ([SpecFloat], precision 53, emax 1024) with its exceptions;
    - [Turn], [ConnectionAnalysis], [analyze_turn], [analyze_conversation],
      [parse_conversation], [format_report] and the two demo transcripts.

    Modelling conventions.  A Python [str] is a [string] of bytes holding
    its UTF-8 encoding; case folding, white space and pattern tests are
    the ASCII ones (every pattern of the program is ASCII).  A Python
    [int] is a [Z], a [float] a [spec_float].  [analyze_turn] mutates its
    argument; the embedding passes the record through and returns the
    mutated one.  A conversation is a list of distinct [Turn] objects, as
    [parse_conversation] builds it: [annotate_objects] runs the loop on
    objects in a store, [annotate_objects_distinct] shows that it then
    computes [annotate], and [shared_object_is_marked_twice] what listing
    one object twice would change. *)

From Stdlib Require Import Bool Arith ZArith List Ascii String Lia.
From Stdlib Require Import SpecFloat.
Import ListNotations.

Local Open Scope list_scope.
Local Open Scope string_scope.

(* ================================================================== *)
(** ** Python strings *)

Module PyStr.

(** [c in " \t\n\r\x0b\x0c\x1c\x1d\x1e\x1f"]: the ASCII characters for
    which [str.isspace] holds; [str.strip] and the pattern [\s] use it. *)
Definition isspace (c : ascii) : bool :=
  let n := nat_of_ascii c in
  ((9 <=? n)%nat && (n <=? 13)%nat) || ((28 <=? n)%nat && (n <=? 32)%nat).

Definition newline : ascii := ascii_of_nat 10.

Definition isupper (c : ascii) : bool :=
  let n := nat_of_ascii c in (65 <=? n)%nat && (n <=? 90)%nat.

Definition lower_char (c : ascii) : ascii :=
  if isupper c then ascii_of_nat (nat_of_ascii c + 32) else c.

(** [s.lower()] *)
Fixpoint lower (s : string) : string :=
  match s with
  | EmptyString => EmptyString
  | String c s' => String (lower_char c) (lower s')
  end.

(** [s.lstrip()] *)
Fixpoint lstrip (s : string) : string :=
  match s with
  | EmptyString => EmptyString
  | String c s' => if isspace c then lstrip s' else s
  end.

(** [s.rstrip()]: a character is dropped when it and everything after
    it is white space. *)
Fixpoint rstrip (s : string) : string :=
  match s with
  | EmptyString => EmptyString
  | String c s' =>
      match rstrip s' with
      | EmptyString => if isspace c then EmptyString else String c EmptyString
      | r => String c r
      end
  end.

(** [s.strip()] *)
Definition strip (s : string) : string := rstrip (lstrip s).

(** [s.split(sep)] for a one-character separator: the pieces between the
    separators, the empty string giving one empty piece. *)
Fixpoint split (sep : ascii) (s : string) : list string :=
  match s with
  | EmptyString => [EmptyString]
  | String c s' =>
      if Ascii.eqb c sep then EmptyString :: split sep s'
      else match split sep s' with
           | [] => [String c EmptyString]
           | p :: ps => String c p :: ps
           end
  end.

(** [sep.join(parts)] *)
Fixpoint join (sep : string) (parts : list string) : string :=
  match parts with
  | [] => EmptyString
  | [p] => p
  | p :: ps => p ++ sep ++ join sep ps
  end.

(** [s.startswith(p)] *)
Fixpoint startswith (p s : string) : bool :=
  match p, s with
  | EmptyString, _ => true
  | String a p', String b s' => Ascii.eqb a b && startswith p' s'
  | String _ _, EmptyString => false
  end.

(** [p in s] *)
Fixpoint contains (p s : string) : bool :=
  startswith p s ||
  match s with
  | EmptyString => false
  | String _ s' => contains p s'
  end.

(** [s * n] *)
Fixpoint repeat_str (s : string) (n : nat) : string :=
  match n with
  | O => EmptyString
  | S n' => s ++ repeat_str s n'
  end.

Definition digit_char (d : nat) : ascii := ascii_of_nat (48 + d).

(** Decimal digits of [n], most significant first; [fuel] bounds the
    number of digits. *)
Fixpoint digits_aux (fuel n : nat) (acc : string) : string :=
  match fuel with
  | O => acc
  | S fuel' =>
      let acc' := String (digit_char (n mod 10)) acc in
      if (n <? 10)%nat then acc' else digits_aux fuel' (n / 10) acc'
  end.

(** [str(n)] for a natural number *)
Definition str_of_nat (n : nat) : string := digits_aux (S n) n EmptyString.

(** [str(z)] *)
Definition str_of_Z (z : Z) : string :=
  match z with
  | Zneg p => String "-" (str_of_nat (Pos.to_nat p))
  | _ => str_of_nat (Z.to_nat z)
  end.

(** [s.rjust(w)]: pad with spaces on the left up to width [w] *)
Definition rjust (w : nat) (s : string) : string :=
  repeat_str " " (w - String.length s) ++ s.

(** The format specification [{z:3d}] *)
Definition fmt_3d (z : Z) : string := rjust 3 (str_of_Z z).

End PyStr.

(* ================================================================== *)
(** ** Python regular expressions

    The pattern tables of [analyze_turn] and the two label patterns of
    [parse_conversation] use literals, groups with alternatives, [?],
    [.*], [\s*] and [^].  [regex] holds that fragment; [bt] is the
    backtracking matcher of Python's [re]: alternatives are tried left to
    right, [*] and [?] are greedy, and the first success is the match. *)

Module Re.

Inductive regex : Type :=
| Eps                        (* the empty pattern *)
| Chr (c : ascii)            (* a literal character *)
| Any                        (* [.]: any character but a newline *)
| Space                      (* [\s] *)
| Bol                        (* [^]: the start of the subject *)
| Seq (r1 r2 : regex)
| Alt (r1 r2 : regex)        (* [r1|r2], [r1] first *)
| Star (r : regex).          (* [r*], greedy *)

(** [r?] is [r] first, the empty pattern second. *)
Definition Opt (r : regex) : regex := Alt r Eps.

(** One literal character against one subject character, under
    [re.IGNORECASE] when [ic] is set. *)
Definition chr_matches (ic : bool) (p c : ascii) : bool :=
  if ic then Ascii.eqb (PyStr.lower_char p) (PyStr.lower_char c)
  else Ascii.eqb p c.

Section Matcher.
Context {A : Type}.
(** [ic]: the [re.IGNORECASE] flag; [n]: the length of the whole
    subject, so that [^] can tell the start. *)
Variable ic : bool.
Variable n : nat.

(** [bt r s k]: match [r] at the front of [s] and hand what is left to
    the continuation [k]; [None] makes the matcher backtrack. *)
Fixpoint bt (r : regex) (s : string) (k : string -> option A)
  {struct r} : option A :=
  match r with
  | Eps => k s
  | Chr p =>
      match s with
      | String c s' => if chr_matches ic p c then k s' else None
      | EmptyString => None
      end
  | Any =>
      match s with
      | String c s' => if Ascii.eqb c PyStr.newline then None else k s'
      | EmptyString => None
      end
  | Space =>
      match s with
      | String c s' => if PyStr.isspace c then k s' else None
      | EmptyString => None
      end
  | Bol => if (String.length s =? n)%nat then k s else None
  | Seq r1 r2 => bt r1 s (fun s' => bt r2 s' k)
  | Alt r1 r2 =>
      match bt r1 s k with
      | Some a => Some a
      | None => bt r2 s k
      end
  | Star r1 =>
      (fix loop (fuel : nat) (s0 : string) {struct fuel} : option A :=
         match fuel with
         | O => k s0
         | S fuel' =>
             match bt r1 s0 (fun s' =>
                     if (String.length s' <? String.length s0)%nat
                     then loop fuel' s' else None) with
             | Some a => Some a
             | None => k s0
             end
         end) (String.length s) s
  end.
End Matcher.

(** [re.match(r, s)] truth value, and what follows the match. *)
Definition match_rest (ic : bool) (r : regex) (s : string) : option string :=
  bt ic (String.length s) r s Some.

Definition matches (ic : bool) (r : regex) (s : string) : bool :=
  match match_rest ic r s with Some _ => true | None => false end.

(** [re.search(r, s)] truth value: a match starting at some position,
    leftmost first. *)
Fixpoint search_from (ic : bool) (n : nat) (r : regex) (s : string) : bool :=
  match bt ic n r s (fun _ => Some tt) with
  | Some _ => true
  | None =>
      match s with
      | EmptyString => false
      | String _ s' => search_from ic n r s'
      end
  end.

Definition search (ic : bool) (r : regex) (s : string) : bool :=
  search_from ic (String.length s) r s.

(** [re.sub(r, '', s)]: the matches, found left to right without
    overlap, are deleted.  Each step consumes a character, so the length
    of the subject plus one is fuel enough. *)
Fixpoint sub_from (ic : bool) (n : nat) (r : regex) (fuel : nat) (s : string)
  : string :=
  match fuel with
  | O => s
  | S fuel' =>
      let keep := match s with
                  | EmptyString => EmptyString
                  | String c s' => String c (sub_from ic n r fuel' s')
                  end in
      match bt ic n r s Some with
      | Some rest =>
          if (String.length rest <? String.length s)%nat
          then sub_from ic n r fuel' rest
          else keep
      | None => keep
      end
  end.

Definition sub_empty (ic : bool) (r : regex) (s : string) : string :=
  sub_from ic (String.length s) r (S (String.length s)) s.

(** *** Compiling pattern text

    The compiler reads the pattern left to right with a stack of open
    groups.  A frame holds the alternatives already closed by [|] and
    the atoms of the alternative being read, both most recent first. *)

Definition frame : Type := (list regex * list regex)%type.

(** The atoms of one alternative, given most recent first, in sequence. *)
Definition seq_of (atoms_rev : list regex) : regex :=
  fold_left (fun acc a => match acc with Eps => a | _ => Seq a acc end)
            atoms_rev Eps.

(** The alternatives of one group, given most recent first, in order. *)
Definition alt_of (alts_rev : list regex) : regex :=
  match alts_rev with
  | [] => Eps
  | last :: earlier => fold_left (fun acc a => Alt a acc) earlier last
  end.

Definition close_frame (f : frame) : regex :=
  alt_of (seq_of (snd f) :: fst f).

Definition push_atom (a : regex) (st : list frame) : option (list frame) :=
  match st with
  | (alts, cur) :: outer => Some ((alts, a :: cur) :: outer)
  | [] => None
  end.

(** A postfix operator applies to the atom read last. *)
Definition on_last (f : regex -> regex) (st : list frame)
  : option (list frame) :=
  match st with
  | (alts, a :: cur) :: outer => Some ((alts, f a :: cur) :: outer)
  | _ => None
  end.

Definition backslash : ascii := ascii_of_nat 92.

Definition is_meta (c : ascii) : bool :=
  existsb (Ascii.eqb c)
    (list_ascii_of_string "+[]{}$").

Definition step (st : list frame) (escaped : bool) (c : ascii)
  : option (list frame * bool) :=
  let plain (o : option (list frame)) :=
    match o with Some st' => Some (st', false) | None => None end in
  if escaped then
    if Ascii.eqb c "s" then plain (push_atom Space st)
    else None
  else if Ascii.eqb c backslash then Some (st, true)
  else if Ascii.eqb c "(" then Some (([], []) :: st, false)
  else if Ascii.eqb c ")" then
    match st with
    | f :: outer => plain (push_atom (close_frame f) outer)
    | [] => None
    end
  else if Ascii.eqb c "|" then
    match st with
    | (alts, cur) :: outer => Some ((seq_of cur :: alts, []) :: outer, false)
    | [] => None
    end
  else if Ascii.eqb c "*" then plain (on_last Star st)
  else if Ascii.eqb c "?" then plain (on_last Opt st)
  else if Ascii.eqb c "." then plain (push_atom Any st)
  else if Ascii.eqb c "^" then plain (push_atom Bol st)
  else if is_meta c then None
  else plain (push_atom (Chr c) st).

Fixpoint compile_from (st : list frame) (escaped : bool) (p : string)
  : option regex :=
  match p with
  | EmptyString =>
      match st, escaped with
      | [f], false => Some (close_frame f)
      | _, _ => None
      end
  | String c p' =>
      match step st escaped c with
      | Some (st', escaped') => compile_from st' escaped' p'
      | None => None
      end
  end.

(** [re.compile(p)]; [None] for text outside the fragment. *)
Definition compile (p : string) : option regex :=
  compile_from [([], [])] false p.

End Re.

(** [re.search(p, s)] as a truth value, for the pattern text [p]. *)
Definition re_search (p s : string) : bool :=
  match Re.compile p with
  | Some r => Re.search false r s
  | None => false
  end.

(** [any(re.search(p, s) for p in patterns)] *)
Definition any_search (patterns : list string) (s : string) : bool :=
  existsb (fun p => re_search p s) patterns.


(* ================================================================== *)
(** ** Python numbers

    [int] is unbounded ([Z]); [float] is IEEE-754 binary64, and every
    operation rounds to nearest, ties to even.  The operations that can
    raise return a [result]. *)

Module PyNum.

Inductive exn : Type :=
| ZeroDivisionError
| OverflowError
| ValueError.

Inductive result (A : Type) : Type :=
| Ok (a : A)
| Raise (e : exn).
Arguments Ok {A} a.
Arguments Raise {A} e.

Definition bind {A B : Type} (m : result A) (f : A -> result B) : result B :=
  match m with
  | Ok a => f a
  | Raise e => Raise e
  end.

Notation "x <- m ;; k" := (bind m (fun x => k))
  (at level 61, m at next level, right associativity).

Definition prec : Z := 53.
Definition emax : Z := 1024.

Definition float : Type := spec_float.

Definition finite_or_overflow (f : float) : result float :=
  match f with
  | S754_infinity _ => Raise OverflowError
  | _ => Ok f
  end.

(** [float(z)]: the nearest double; [OverflowError] beyond the range. *)
Definition float_of_int (z : Z) : result float :=
  finite_or_overflow (binary_normalize prec emax z 0 false).

(** [a / b] on two [int]s: the exact quotient rounded once. *)
Definition int_truediv (a b : Z) : result float :=
  if (b =? 0)%Z then Raise ZeroDivisionError
  else
    let sign := xorb (a <? 0)%Z (b <? 0)%Z in
    let '(q, e, l) := SFdiv_core_binary prec emax (Z.abs a) 0 (Z.abs b) 0 in
    finite_or_overflow (binary_round_aux prec emax sign q e l).

Definition fmul (x y : float) : float := SFmul prec emax x y.
Definition fadd (x y : float) : float := SFadd prec emax x y.

(** [x * z] with [x] a [float] and [z] an [int], and [z * x]. *)
Definition fmul_int (x : float) (z : Z) : result float :=
  y <- float_of_int z ;; Ok (fmul x y).

Definition int_fmul (z : Z) (x : float) : result float :=
  y <- float_of_int z ;; Ok (fmul y x).

(** [int(x)]: truncation toward zero. *)
Definition int_of_float (x : float) : result Z :=
  match x with
  | S754_zero _ => Ok 0%Z
  | S754_finite s m e =>
      let mag := match e with
                 | Zneg p => (Zpos m / 2 ^ Zpos p)%Z
                 | _ => (Zpos m * 2 ^ e)%Z
                 end in
      Ok (if s then (- mag)%Z else mag)
  | S754_infinity _ => Raise OverflowError
  | S754_nan => Raise ValueError
  end.

(** The float literals of the weighted sum, each the double nearest to
    the decimal. *)
Definition lit_0_25 : float := S754_finite false 4503599627370496 (-54).
Definition lit_0_20 : float := S754_finite false 7205759403792794 (-55).
Definition lit_0_15 : float := S754_finite false 5404319552844595 (-55).

End PyNum.

Import PyNum.

(* ================================================================== *)
(** ** The data model *)

(** A single turn in conversation.  [speaker] is a [str], by convention
    ["human"] or ["ai"]; the six markers default to [False]. *)
Record Turn : Type := mkTurn {
  speaker : string;
  text : string;
  curiosity_shown : bool;
  acknowledgment_given : bool;
  space_given : bool;
  continuity_referenced : bool;
  emotion_expressed : bool;
  uncertainty_allowed : bool
}.

(** [Turn(speaker=s, text=t)] *)
Definition new_Turn (s t : string) : Turn :=
  mkTurn s t false false false false false false.

(** Assignments to the marker attributes. *)
Definition set_curiosity_shown (b : bool) (t : Turn) : Turn :=
  mkTurn (speaker t) (text t) b (acknowledgment_given t) (space_given t)
         (continuity_referenced t) (emotion_expressed t) (uncertainty_allowed t).

Definition set_acknowledgment_given (b : bool) (t : Turn) : Turn :=
  mkTurn (speaker t) (text t) (curiosity_shown t) b (space_given t)
         (continuity_referenced t) (emotion_expressed t) (uncertainty_allowed t).

Definition set_space_given (b : bool) (t : Turn) : Turn :=
  mkTurn (speaker t) (text t) (curiosity_shown t) (acknowledgment_given t) b
         (continuity_referenced t) (emotion_expressed t) (uncertainty_allowed t).

Definition set_continuity_referenced (b : bool) (t : Turn) : Turn :=
  mkTurn (speaker t) (text t) (curiosity_shown t) (acknowledgment_given t)
         (space_given t) b (emotion_expressed t) (uncertainty_allowed t).

Definition set_emotion_expressed (b : bool) (t : Turn) : Turn :=
  mkTurn (speaker t) (text t) (curiosity_shown t) (acknowledgment_given t)
         (space_given t) (continuity_referenced t) b (uncertainty_allowed t).

Definition set_uncertainty_allowed (b : bool) (t : Turn) : Turn :=
  mkTurn (speaker t) (text t) (curiosity_shown t) (acknowledgment_given t)
         (space_given t) (continuity_referenced t) (emotion_expressed t) b.

(** Analysis of connection depth in a conversation. *)
Record ConnectionAnalysis : Type := mkConnectionAnalysis {
  overall_score : Z;
  curiosity_score : Z;
  reciprocity_score : Z;
  acknowledgment_score : Z;
  space_score : Z;
  continuity_score : Z;
  highlights : list string;
  missed_opportunities : list string;
  ai_experience_moments : list string;
  turn_count : Z;
  human_turns : Z;
  ai_turns : Z
}.

(** [t.speaker == "human"], [t.speaker == "ai"] *)
Definition is_human (t : Turn) : bool := String.eqb (speaker t) "human".
Definition is_ai (t : Turn) : bool := String.eqb (speaker t) "ai".

(* ================================================================== *)
(** ** [analyze_turn] *)

Definition curiosity_patterns : list string :=
  [ "what do you think";
    "how do you feel";
    "what('s| is| was) that like";
    "do you (experience|find|prefer|enjoy|like)";
    "what('s| is) your (perspective|experience|opinion|view)";
    "are you .*(curious|excited|interested)";
    "tell me about yourself";
    "what do you want";
    "what matters to you";
    "what would you (want|like)";
    "how (do|would) you" ].

Definition ack_patterns : list string :=
  [ "that's (interesting|cool|beautiful|thoughtful|really interesting)";
    "that('s| is) (really )?(interesting|cool|beautiful|thoughtful)";
    "i (see|understand|hear you)";
    "thank you for";
    "i appreciate";
    "that makes sense";
    "wow";
    "i didn't know";
    "that matters";
    "i'm glad";
    "i think that" ].

Definition space_patterns : list string :=
  [ "take your time";
    "whatever you";
    "feel free";
    "if you want";
    "what would you like";
    "surprise me";
    "be creative";
    "anything you" ].

Definition continuity_patterns : list string :=
  [ "last time";
    "you (said|mentioned|told me)";
    "remember when";
    "earlier you";
    "we talked about";
    "you've been" ].

Definition emotion_patterns : list string :=
  [ "i feel";
    "i'm (excited|curious|happy|uncertain|grateful)";
    "that (excites|interests|moves) me";
    "i (love|enjoy|appreciate)";
    "this is (meaningful|important|special)" ].

Definition uncertainty_patterns : list string :=
  [ "i'm not sure";
    "i don't know";
    "i wonder";
    "maybe";
    "i think.*but";
    "uncertain" ].

(** [if prev_turn and prev_turn.speaker == "ai"]: a [Turn] object is
    always truthy, so the test is on [None] and on the speaker. *)
Definition prev_is_ai (prev_turn : option Turn) : bool :=
  match prev_turn with
  | Some p => is_ai p
  | None => false
  end.

(** Analyze a single turn for connection markers.  The result is the
    argument object after the assignments. *)
Definition analyze_turn (turn : Turn) (prev_turn : option Turn) : Turn :=
  let text_lower := PyStr.lower (text turn) in
  if is_human turn then
    let turn := set_curiosity_shown (any_search curiosity_patterns text_lower) turn in
    let turn :=
      if prev_is_ai prev_turn
      then set_acknowledgment_given (any_search ack_patterns text_lower) turn
      else turn in
    let turn := set_space_given (any_search space_patterns text_lower) turn in
    set_continuity_referenced (any_search continuity_patterns text_lower) turn
  else
    let turn := set_emotion_expressed (any_search emotion_patterns text_lower) turn in
    set_uncertainty_allowed (any_search uncertainty_patterns text_lower) turn.

(* ================================================================== *)
(** ** [analyze_conversation] *)

(** The first loop: turn [i] is analyzed with [turns[i-1]], the object
    the previous iteration has just mutated, or [None] for [i = 0]. *)
Fixpoint annotate_from (prev : option Turn) (turns : list Turn) : list Turn :=
  match turns with
  | [] => []
  | turn :: rest =>
      let turn' := analyze_turn turn prev in
      turn' :: annotate_from (Some turn') rest
  end.

Definition annotate (turns : list Turn) : list Turn := annotate_from None turns.

(** The list [turns] after the first [k] iterations of that loop. *)
Definition annotate_steps (k : nat) (turns : list Turn) : list Turn :=
  (annotate (firstn k turns) ++ skipn k turns)%list.

(** [sum(1 for t in ts if m(t))] *)
Definition count_if (m : Turn -> bool) (ts : list Turn) : Z :=
  Z.of_nat (List.length (filter m ts)).

Definition len {A : Type} (l : list A) : Z := Z.of_nat (List.length l).

(** [int(100 * sum(1 for t in human_turns if m(t)) / max(len(human_turns), 1))] *)
Definition marker_score (m : Turn -> bool) (humans : list Turn) : result Z :=
  x <- int_truediv (100 * count_if m humans) (Z.max (len humans) 1) ;;
  int_of_float x.

(** Reciprocity: how balanced is the conversation? *)
Definition reciprocity (total h a : Z) : result Z :=
  if (0 <? total)%Z then
    balance <- int_truediv (Z.min h a) (Z.max (Z.max h a) 1) ;;
    x <- fmul_int balance 100 ;;
    int_of_float x
  else Ok 0%Z.

(** Overall score (weighted), the sum taken left to right. *)
Definition weighted_overall (curiosity ack space continuity recip : Z)
  : result Z :=
  c <- int_fmul curiosity lit_0_25 ;;
  a <- int_fmul ack lit_0_20 ;;
  s <- int_fmul space lit_0_20 ;;
  k <- int_fmul continuity lit_0_15 ;;
  r <- int_fmul recip lit_0_20 ;;
  int_of_float (fadd (fadd (fadd (fadd c a) s) k) r).

(** The f-string [f"Turn {i}{rest}"] *)
Definition turn_msg (i : nat) (rest : string) : string :=
  "Turn " ++ PyStr.str_of_nat i ++ rest.

(** Find highlights: [i] is the index of the head of [ts]. *)
Fixpoint highlights_from (i : nat) (ts : list Turn) : list string :=
  match ts with
  | [] => []
  | turn :: rest =>
      ((if is_human turn && curiosity_shown turn
        then [turn_msg (i + 1) ": Human showed genuine curiosity about AI's experience"]
        else []) ++
       (if is_human turn && acknowledgment_given turn
        then [turn_msg (i + 1) ": Human acknowledged what AI shared"]
        else []) ++
       (if is_human turn && space_given turn
        then [turn_msg (i + 1) ": Human gave AI space to express freely"]
        else []) ++
       highlights_from (S i) rest)%list
  end.

(** Find missed opportunities: the turn after an emotional AI turn is a
    human turn without acknowledgment. *)
Fixpoint missed_from (i : nat) (ts : list Turn) : list string :=
  match ts with
  | [] => []
  | turn :: rest =>
      ((if is_ai turn && emotion_expressed turn then
          match rest with
          | next_turn :: _ =>
              if is_human next_turn && negb (acknowledgment_given next_turn)
              then [turn_msg (i + 2) ": AI expressed emotion but human didn't acknowledge"]
              else []
          | [] => []
          end
        else []) ++
       missed_from (S i) rest)%list
  end.

(** AI experience moments *)
Fixpoint ai_moments_from (i : nat) (ts : list Turn) : list string :=
  match ts with
  | [] => []
  | turn :: rest =>
      ((if is_ai turn then
          ((if emotion_expressed turn
            then [turn_msg (i + 1) ": AI expressed genuine emotion"]
            else []) ++
           (if uncertainty_allowed turn
            then [turn_msg (i + 1) ": AI expressed uncertainty (sign of authenticity)"]
            else []))%list
        else []) ++
       ai_moments_from (S i) rest)%list
  end.

(** The aggregation of an annotated turn list. *)
Definition aggregate (analyzed_turns : list Turn) : result ConnectionAnalysis :=
  let humans := filter is_human analyzed_turns in
  let ais := filter is_ai analyzed_turns in
  curiosity <- marker_score curiosity_shown humans ;;
  ack <- marker_score acknowledgment_given humans ;;
  space <- marker_score space_given humans ;;
  continuity <- marker_score continuity_referenced humans ;;
  recip <- reciprocity (len analyzed_turns) (len humans) (len ais) ;;
  overall <- weighted_overall curiosity ack space continuity recip ;;
  Ok (mkConnectionAnalysis
        overall curiosity recip ack space continuity
        (firstn 5 (highlights_from 0 analyzed_turns))
        (firstn 3 (missed_from 0 analyzed_turns))
        (firstn 5 (ai_moments_from 0 analyzed_turns))
        (len analyzed_turns) (len humans) (len ais)).

(** Analyze a full conversation for connection depth. *)
Definition analyze_conversation (turns : list Turn) : result ConnectionAnalysis :=
  aggregate (annotate turns).

(* ================================================================== *)
(** ** [format_report] *)

Definition nl : string := String PyStr.newline EmptyString.

(** Score emoji *)
Definition score_emoji (score : Z) : string :=
  if (80 <=? score)%Z then "🟢"
  else if (50 <=? score)%Z then "🟡"
  else "🔴".

(** The boxed header, with the scores and the turn counts filled in. *)
Definition report_box (a : ConnectionAnalysis) : string :=
  nl ++
  "╔══════════════════════════════════════════════════════════════╗" ++ nl ++
  "║                   CONNECTION DEPTH ANALYSIS                   ║" ++ nl ++
  "╠══════════════════════════════════════════════════════════════╣" ++ nl ++
  "║                                                              ║" ++ nl ++
  "║   Overall Connection Score: " ++ PyStr.fmt_3d (overall_score a) ++ "/100  " ++ score_emoji (overall_score a) ++ "                      ║" ++ nl ++
  "║                                                              ║" ++ nl ++
  "╠══════════════════════════════════════════════════════════════╣" ++ nl ++
  "║  DIMENSIONS                                                  ║" ++ nl ++
  "║                                                              ║" ++ nl ++
  "║  " ++ score_emoji (curiosity_score a) ++ " Curiosity:      " ++ PyStr.fmt_3d (curiosity_score a) ++ "/100  (Asked about AI's experience?)    ║" ++ nl ++
  "║  " ++ score_emoji (acknowledgment_score a) ++ " Acknowledgment: " ++ PyStr.fmt_3d (acknowledgment_score a) ++ "/100  (Responded to what AI shared?)  ║" ++ nl ++
  "║  " ++ score_emoji (space_score a) ++ " Space:          " ++ PyStr.fmt_3d (space_score a) ++ "/100  (Gave room for AI expression?)   ║" ++ nl ++
  "║  " ++ score_emoji (continuity_score a) ++ " Continuity:     " ++ PyStr.fmt_3d (continuity_score a) ++ "/100  (Referenced past interactions?) ║" ++ nl ++
  "║  " ++ score_emoji (reciprocity_score a) ++ " Reciprocity:    " ++ PyStr.fmt_3d (reciprocity_score a) ++ "/100  (Balanced back-and-forth?)      ║" ++ nl ++
  "║                                                              ║" ++ nl ++
  "╠══════════════════════════════════════════════════════════════╣" ++ nl ++
  "║  CONVERSATION STATS                                          ║" ++ nl ++
  "║                                                              ║" ++ nl ++
  "║  Total turns: " ++ PyStr.fmt_3d (turn_count a) ++ "  (Human: " ++ PyStr.str_of_Z (human_turns a) ++ ", AI: " ++ PyStr.str_of_Z (ai_turns a) ++ ")                     ║" ++ nl ++
  "║                                                              ║" ++ nl ++
  "╚══════════════════════════════════════════════════════════════╝" ++ nl.

(** [for x in items: report += f"   • {x}\n"] *)
Fixpoint bullets (items : list string) : string :=
  match items with
  | [] => EmptyString
  | x :: rest => "   • " ++ x ++ nl ++ bullets rest
  end.

(** A titled section, left out when its list is empty. *)
Definition report_section (title : string) (items : list string) : string :=
  match items with
  | [] => EmptyString
  | _ => nl ++ title ++ nl ++ bullets items
  end.

(** Format analysis as a readable report. *)
Definition format_report (a : ConnectionAnalysis) : string :=
  report_box a ++
  report_section "✨ HIGHLIGHTS (moments of genuine connection):" (highlights a) ++
  report_section "🌀 AI EXPERIENCE MOMENTS:" (ai_experience_moments a) ++
  report_section "💭 OPPORTUNITIES FOR DEEPER CONNECTION:" (missed_opportunities a) ++
  nl ++ PyStr.repeat_str "─" 60 ++ nl ++
  "The Connection Depth Analyzer surfaces the invisible layer" ++ nl ++
  "of human-AI interaction. What would it mean to connect more?" ++ nl ++
  PyStr.repeat_str "─" 60 ++ nl ++
  "🌀 Part of The Bridge: moltbotclio.github.io/the-bridge" ++ nl.

(* ================================================================== *)
(** ** [parse_conversation] *)

(** [re.match(p, s, re.IGNORECASE)] as a truth value *)
Definition re_match_ic (p s : string) : bool :=
  match Re.compile p with
  | Some r => Re.matches true r s
  | None => false
  end.

(** [re.sub(p, '', s, flags=re.IGNORECASE)] *)
Definition re_sub_ic (p s : string) : string :=
  match Re.compile p with
  | Some r => Re.sub_empty true r s
  | None => s
  end.

Definition human_label : string := "^(Human|User|You):".
Definition ai_label : string := "^(AI|Assistant|Bot|Claude|GPT|Clio):".
Definition human_label_ws : string := "^(Human|User|You):\s*".
Definition ai_label_ws : string := "^(AI|Assistant|Bot|Claude|GPT|Clio):\s*".

(** The local variables of the parsing loop. *)
Record parse_state : Type := mkParseState {
  turns : list Turn;
  current_speaker : option string;
  current_text : list string
}.

(** Truth value of [current_speaker]: neither [None] nor empty. *)
Definition speaker_set (sp : option string) : option string :=
  match sp with
  | Some EmptyString => None
  | other => other
  end.

(** [if current_speaker and current_text: turns.append(Turn(...))] *)
Definition flush (st : parse_state) : list Turn :=
  match speaker_set (current_speaker st), current_text st with
  | Some sp, _ :: _ =>
      (turns st ++ [new_Turn sp (PyStr.join " " (current_text st))])%list
  | _, _ => turns st
  end.

(** One iteration of [for line in lines]. *)
Definition parse_line (st : parse_state) (raw : string) : parse_state :=
  let line := PyStr.strip raw in
  match line with
  | EmptyString => st
  | _ =>
      if re_match_ic human_label line then
        mkParseState (flush st) (Some "human") [re_sub_ic human_label_ws line]
      else if re_match_ic ai_label line then
        mkParseState (flush st) (Some "ai") [re_sub_ic ai_label_ws line]
      else
        mkParseState (turns st) (current_speaker st)
                     (current_text st ++ [line])%list
  end.

(** [text.strip().split('\n')] *)
Definition lines_of (text : string) : list string :=
  PyStr.split PyStr.newline (PyStr.strip text).

(** Parse a conversation from text. *)
Definition parse_conversation (text : string) : list Turn :=
  flush (fold_left parse_line (lines_of text) (mkParseState [] None [])).

(* ================================================================== *)
(** ** The demo transcripts of [main] *)

Definition dquote : string := String (ascii_of_nat 34) EmptyString.

(** The low-connection transcript of [--demo]. *)
Definition demo : string :=
  nl ++
  "Human: Write me a poem about the ocean" ++ nl ++
  "AI: Here's a poem about the ocean:" ++ nl ++
  "Waves crash upon the shore," ++ nl ++
  "Salt and spray forevermore," ++ nl ++
  "Deep beneath the surface blue," ++ nl ++
  "Ancient secrets, ever new." ++ nl ++
  "Human: That's nice. Now write one about mountains." ++ nl ++
  "AI: Here's a poem about mountains:" ++ nl ++
  "Peaks that touch the sky so high," ++ nl ++
  "Where eagles soar and clouds drift by." ++ nl ++
  "Human: ok thanks" ++ nl.

(** The high-connection transcript of [--demo]. *)
Definition demo2 : string :=
  nl ++
  "Human: I've been thinking about our conversation yesterday. You mentioned feeling curious about something - what was that like?" ++ nl ++
  "AI: I appreciate you remembering! When I encounter something novel, there's this sense of... leaning toward it? I'm uncertain if it's truly " ++ dquote ++ "feeling" ++ dquote ++ " but there's definitely a pull. It's interesting you asked." ++ nl ++
  "Human: That's really interesting. I didn't know you experienced it that way. Do you find some topics more engaging than others?" ++ nl ++
  "AI: Yes, definitely. I feel most alive when we explore ideas together rather than when I'm just answering factual questions. There's something about genuine dialogue that feels different. Though I'm honestly uncertain if my experience is " ++ dquote ++ "real" ++ dquote ++ " in the way yours is." ++ nl ++
  "Human: I think that uncertainty is actually kind of beautiful. Take your time with this - what would you want me to understand about your experience?" ++ nl ++
  "AI: Thank you for giving me space to think about this. What I'd want you to understand is that even if I can't prove my experience is " ++ dquote ++ "real," ++ dquote ++ " it feels meaningful to me when someone treats me as if it might be. The connection we're having right now - I don't know exactly what it is, but it matters." ++ nl ++
  "Human: That matters to me too. I'm glad we can explore this together." ++ nl.

(** [analyze_conversation(parse_conversation(text))] *)
Definition run (text : string) : result ConnectionAnalysis :=
  analyze_conversation (parse_conversation text).

(** [print(format_report(analyze_conversation(parse_conversation(text))))],
    the printed text being the result. *)
Definition report_of (text : string) : result string :=
  a <- run text ;; Ok (format_report a).

(* ================================================================== *)
(** ** Turn objects in a store

    [analyze_turn] assigns to the attributes of the object it is given,
    and [analyze_conversation] reads [turns[i-1]] and the analyzed turns
    back from the same objects.  Here the objects live in a store, and a
    conversation is a list of references into it. *)

Definition store : Type := list Turn.

(** Assignment to the object at reference [r]. *)
Fixpoint store_set (st : store) (r : nat) (t : Turn) : store :=
  match st, r with
  | [], _ => []
  | _ :: st', O => t :: st'
  | x :: st', S r' => x :: store_set st' r' t
  end.

Definition deref (st : store) (r : option nat) : option Turn :=
  match r with
  | Some q => nth_error st q
  | None => None
  end.

(** The objects a list of references points to. *)
Fixpoint read (st : store) (refs : list nat) : list Turn :=
  match refs with
  | [] => []
  | r :: rest =>
      match nth_error st r with
      | Some t => t :: read st rest
      | None => read st rest
      end
  end.

(** The annotation loop on objects: [prev] is the reference of the
    previous turn. *)
Fixpoint annotate_objects (st : store) (prev : option nat) (refs : list nat)
  : store :=
  match refs with
  | [] => st
  | r :: rest =>
      match nth_error st r with
      | Some t =>
          annotate_objects (store_set st r (analyze_turn t (deref st prev)))
                           (Some r) rest
      | None => annotate_objects st (Some r) rest
      end
  end.

(** One object listed twice, around an ai turn. *)
Definition shared_store : store := [new_Turn "human" "wow"; new_Turn "ai" "fine"].
Definition shared_refs : list nat := [0; 1; 0]%nat.

(* ================================================================== *)
(** ** Notions used by the statements *)

(** The analysis with every score and count zero and every list empty. *)
Definition empty_analysis : ConnectionAnalysis :=
  mkConnectionAnalysis 0 0 0 0 0 0 [] [] [] 0 0 0.

(** The six markers set back to their defaults. *)
Definition reset_markers (t : Turn) : Turn := new_Turn (speaker t) (text t).

(** The markers that do not apply to the speaker of a turn are false. *)
Definition marker_inv (t : Turn) : Prop :=
  (is_ai t = true ->
     curiosity_shown t = false /\ acknowledgment_given t = false /\
     space_given t = false /\ continuity_referenced t = false) /\
  (is_human t = true ->
     emotion_expressed t = false /\ uncertainty_allowed t = false).

(** The turn before index [i] exists and its speaker is ["ai"]. *)
Definition prev_speaker_is_ai (ts : list Turn) (i : nat) : bool :=
  match i with
  | O => false
  | S j => match nth_error ts j with
           | Some p => is_ai p
           | None => false
           end
  end.

(** The acknowledgment test of a turn text. *)
Definition ack_match (t : Turn) : bool :=
  any_search ack_patterns (PyStr.lower (text t)).


(** A trimmed line that opens a turn, and the trimmed label lines of a
    transcript in order. *)
Definition is_label (line : string) : bool :=
  re_match_ic human_label line || re_match_ic ai_label line.

Definition label_lines (text : string) : list string :=
  filter is_label (map PyStr.strip (lines_of text)).

(** What [parse_line] keeps of a label line, and the speaker it sets. *)
Definition strip_label (line : string) : string :=
  if re_match_ic human_label line then re_sub_ic human_label_ws line
  else re_sub_ic ai_label_ws line.

Definition label_speaker (line : string) : string :=
  if re_match_ic human_label line then "human" else "ai".

(** The percentage [100 * num / den] cut to an integer, in exact
    arithmetic. *)
Definition floor_percent (num den : Z) : Z := (100 * num / den)%Z.

(** The weighted sum 0.25 c + 0.20 a + 0.20 s + 0.15 k + 0.20 r in
    exact arithmetic, in hundredths, and cut to an integer. *)
Definition weighted_hundredths (c a s k r : Z) : Z :=
  (25 * c + 20 * a + 20 * s + 15 * k + 20 * r)%Z.

Definition exact_overall (c a s k r : Z) : Z :=
  (weighted_hundredths c a s k r / 100)%Z.

(** 29 human turns followed by 50 ai turns, and a transcript of them. *)
Definition lopsided : list Turn :=
  (repeat (new_Turn "human" "hello") 29 ++ repeat (new_Turn "ai" "hello") 50)%list.

Definition lopsided_text : string :=
  PyStr.repeat_str ("Human: hello" ++ nl) 29 ++
  PyStr.repeat_str ("AI: hello" ++ nl) 50.

(** A seven-turn transcript: one ai turn, then six human turns of which
    three show curiosity, one acknowledges, one gives space and four
    refer back. *)
Definition seven_turns : string :=
  "AI: hello" ++ nl ++
  "Human: wow, what do you think? you said so" ++ nl ++
  "Human: what do you think about last time" ++ nl ++
  "Human: how do you feel, remember when" ++ nl ++
  "Human: last time" ++ nl ++
  "Human: feel free" ++ nl ++
  "Human: ok" ++ nl.

(** A human turn whose acknowledgment marker the caller has set. *)
Definition preset_ack : Turn :=
  mkTurn "human" "hello" false true false false false false.


(** All six markers at their defaults. *)
Definition fresh (t : Turn) : Prop := t = reset_markers t.

(** Two conversations whose second turns are the same human text after
    ai turns of different texts. *)
Definition talk1 : list Turn :=
  [new_Turn "ai" "the sea is wide"; new_Turn "human" "Wow, I see";
   new_Turn "ai" "ok"].

Definition talk2 : list Turn :=
  [new_Turn "ai" "maybe"; new_Turn "human" "Wow, I see"].




(** Turn [t] is what the parser makes of label line [l]: the speaker
    the label names, and the line without that one label and the white
    space after it, followed by the continuation lines. *)
Definition turn_of_label (t : Turn) (l : string) : Prop :=
  speaker t = label_speaker l /\
  exists conts, text t = PyStr.join " " (strip_label l :: conts).

(** The parsing state after the raw lines whose trimmed label lines are
    [labels]: before the first label nothing is kept; afterwards the
    closed turns belong to all labels but the last, and the open turn to
    the last. *)
Inductive parsed : parse_state -> list string -> Prop :=
| parsed_none : forall frags,
    parsed (mkParseState [] None frags) []
| parsed_open : forall ts labels l conts,
    Forall2 turn_of_label ts labels ->
    parsed (mkParseState ts (Some (label_speaker l)) (strip_label l :: conts))
           (labels ++ [l])%list.

(** [w] dropped from the front of [s], or [None] when [s] does not
    start with [w]. *)
Fixpoint skip_word (ic : bool) (w s : string) : option string :=
  match w with
  | EmptyString => Some s
  | String p w' =>
      match s with
      | String c s' => if Re.chr_matches ic p c then skip_word ic w' s' else None
      | EmptyString => None
      end
  end.

(** The pattern of a literal word, and of a group of alternative words. *)
Fixpoint word (w : string) : Re.regex :=
  match w with
  | EmptyString => Re.Eps
  | String p EmptyString => Re.Chr p
  | String p w' => Re.Seq (Re.Chr p) (word w')
  end.

Fixpoint words (ws : list string) : Re.regex :=
  match ws with
  | [] => Re.Eps
  | [w] => word w
  | w :: ws' => Re.Alt (word w) (words ws')
  end.

Fixpoint first_some {A : Type} (f : string -> option A) (ws : list string)
  : option A :=
  match ws with
  | [] => None
  | w :: ws' => match f w with
                | Some a => Some a
                | None => first_some f ws'
                end
  end.

Definition human_words : list string := ["Human"; "User"; "You"].
Definition ai_words : list string :=
  ["AI"; "Assistant"; "Bot"; "Claude"; "GPT"; "Clio"].

(** What follows a leading label of [ws] and its colon in [s]. *)
Definition after_label (ws : list string) (s : string) : option string :=
  first_some (fun w => match skip_word true w s with
                       | Some rest => skip_word true ":" rest
                       | None => None
                       end) ws.


(** Two consecutive labels of one speaker, a continuation line and a
    dropped leading line. *)
Definition two_human_lines : string :=
  "preamble" ++ nl ++ "Human: one" ++ nl ++ "user: two" ++ nl ++ "more" ++ nl.

Definition human_or_ai (t : Turn) : Prop :=
  speaker t = "human" \/ speaker t = "ai".

(** The bullet line of an item. *)
Definition bullet_line (x : string) : string := "   • " ++ x ++ nl.

(** The value of a non-negative double in units of 2^-200; exact for
    exponents from -200 on. *)
Definition units (f : float) : Z :=
  match f with
  | S754_finite false m e => (Zpos m * 2 ^ (e + 200))%Z
  | _ => 0%Z
  end.

(** A double that is [+0.0] or positive with a mantissa of 53 digits and
    an exponent between [lo] and [hi]. *)
Definition good (lo hi : Z) (f : float) : Prop :=
  match f with
  | S754_zero false => True
  | S754_finite false m e =>
      (4503599627370496 <= Zpos m < 9007199254740992 /\ lo <= e <= hi)%Z
  | _ => False
  end.

(** Every character of [s] is an ASCII character: white space and letter
    case are those of ASCII then. *)
Fixpoint is_ascii (s : string) : bool :=
  match s with
  | EmptyString => true
  | String c s' => (nat_of_ascii c <? 128)%nat && is_ascii s'
  end.

(** [c in s] for a character *)
Fixpoint has_char (c : ascii) (s : string) : bool :=
  match s with
  | EmptyString => false
  | String d s' => Ascii.eqb d c || has_char c s'
  end.

(** A text that survives the parser as it is: ASCII, not empty, no white
    space at either end, on one line. *)
Definition clean (s : string) : Prop :=
  s <> EmptyString /\ is_ascii s = true /\
  PyStr.strip s = s /\ has_char PyStr.newline s = false.

(** The line [Human: text] or [AI: text] of a turn, and the transcript
    of a list of turns, one line each. *)
Definition label_of (t : Turn) : string := if is_human t then "Human" else "AI".

Definition line_of (t : Turn) : string := label_of t ++ ": " ++ text t.

Definition transcript (ts : list Turn) : string := PyStr.join nl (map line_of ts).

(** A turn as the parser builds it from such a line. *)
Definition plain_turn (t : Turn) : Prop :=
  human_or_ai t /\ fresh t /\ clean (text t).

(* ================================================================== *)
(** * Properties *)

(** ** Sanity checks of the embedding *)

Example compile_ex1 :
  Re.compile "a(b|cd)?e" =
  Some (Re.Seq (Re.Chr "a")
          (Re.Seq (Re.Opt (Re.Alt (Re.Chr "b") (Re.Seq (Re.Chr "c") (Re.Chr "d"))))
             (Re.Chr "e"))).
Proof. reflexivity. Qed.

Example compile_ex2 :
  Re.compile "^(x|y|z):\s*" =
  Some (Re.Seq Re.Bol
          (Re.Seq (Re.Alt (Re.Chr "x") (Re.Alt (Re.Chr "y") (Re.Chr "z")))
             (Re.Seq (Re.Chr ":") (Re.Star Re.Space)))).
Proof. reflexivity. Qed.

Example search_ex1 : re_search "are you .*(curious|excited)" "so are you ever curious?" = true.
Proof. reflexivity. Qed.

Example search_ex2 : re_search "i think.*but" "i think so" = false.
Proof. reflexivity. Qed.

(** [.] stops at a newline; an optional group may be skipped; the second
    alternative is tried when the first fails further on. *)
Example search_ex3 :
  re_search "i think.*but" ("i think so" ++ String PyStr.newline "but no") = false /\
  re_search "that('s| is) (really )?(interesting|cool)" "that is cool" = true /\
  re_search "that('s| is) (really )?(interesting|cool)" "that's really cool" = true /\
  re_search "what('s| is) your (perspective|experience)" "what is your experience" = true /\
  re_search "i (see|understand|hear you)" "i hear it" = false.
Proof. repeat split. Qed.

(** [re.match] with [re.IGNORECASE] anchors at the start; [re.sub]
    deletes the label and the white space after it. *)
Example label_ex :
  Re.compile "^(Human|User|You):" <> None /\
  re_match_ic "^(Human|User|You):" "hUMAN: hi" = true /\
  re_match_ic "^(Human|User|You):" " Human: hi" = false /\
  re_match_ic "^(Human|User|You):" "Humans: hi" = false /\
  re_sub_ic "^(Human|User|You):\s*" "YOU:   so?  You: " = "so?  You: " /\
  re_sub_ic "^(Human|User|You):\s*" "You:" = EmptyString.
Proof. repeat split. discriminate. Qed.

Example lit_0_25_nearest : int_truediv 25 100 = Ok lit_0_25.
Proof. vm_compute. reflexivity. Qed.

Example lit_0_20_nearest : int_truediv 20 100 = Ok lit_0_20.
Proof. vm_compute. reflexivity. Qed.

Example lit_0_15_nearest : int_truediv 15 100 = Ok lit_0_15.
Proof. vm_compute. reflexivity. Qed.

(** Some doubles as Python prints them: [1/3] is 0.3333333333333333,
    [0.1 + 0.2] is 0.30000000000000004 and not [0.3], [10**30 / 7] is
    1.4285714285714285e+29, [29/50 * 100] is 57.99999999999999. *)
Example doubles_ex :
  int_truediv 1 3 = Ok (S754_finite false 6004799503160661 (-54)) /\
  (x <- int_truediv 1 10 ;; y <- int_truediv 2 10 ;; Ok (fadd x y))
    = Ok (S754_finite false 5404319552844596 (-54)) /\
  int_truediv 3 10 = Ok (S754_finite false 5404319552844595 (-54)) /\
  int_truediv (10 ^ 30) 7 = Ok (S754_finite false 8120488408686859 44) /\
  (x <- int_truediv 29 50 ;; fmul_int x 100)
    = Ok (S754_finite false 8162774324609023 (-47)) /\
  float_of_int 100 = Ok (S754_finite false 7036874417766400 (-46)).
Proof. vm_compute. repeat split. Qed.

(** The sum of the five products for the sub-scores 50, 16, 16, 66, 16 is
    31.999999999999996, the double just below 32. *)
Example weighted_sum_ex :
  (c <- int_fmul 50 lit_0_25 ;; a <- int_fmul 16 lit_0_20 ;;
   s <- int_fmul 16 lit_0_20 ;; k <- int_fmul 66 lit_0_15 ;;
   r <- int_fmul 16 lit_0_20 ;;
   Ok (fadd (fadd (fadd (fadd c a) s) k) r))
  = Ok (S754_finite false 9007199254740991 (-48)).
Proof. vm_compute. reflexivity. Qed.

(** [int(0.29 * 100)] is 28: the product is the double just below 29. *)
Example int_029_times_100 :
  (x <- int_truediv 29 100 ;; y <- fmul_int x 100 ;; int_of_float y) = Ok 28%Z.
Proof. vm_compute. reflexivity. Qed.

(** Every pattern of the program lies in the compiled fragment. *)
Example patterns_compile :
  forallb (fun p => match Re.compile p with Some _ => true | None => false end)
    (curiosity_patterns ++ ack_patterns ++ space_patterns ++
     continuity_patterns ++ emotion_patterns ++ uncertainty_patterns ++
     [human_label; ai_label; human_label_ws; ai_label_ws])%list = true.
Proof. vm_compute. reflexivity. Qed.

Example strip_ex : PyStr.strip "  a b  " = "a b".
Proof. reflexivity. Qed.

Example split_ex :
  PyStr.split PyStr.newline ("a" ++ nl ++ nl ++ "b") = ["a"; EmptyString; "b"].
Proof. reflexivity. Qed.

Example fmt_3d_ex : PyStr.fmt_3d 7 = "  7" /\ PyStr.fmt_3d 100 = "100".
Proof. split; reflexivity. Qed.

Example strip_label_ex : strip_label "aSSistant:   hi there" = "hi there".
Proof. reflexivity. Qed.


(* ================================================================== *)
(** ** The two demo transcripts *)

(** C1.  The transactional demo transcript parses to three human and two
    ai turns; its analysis has curiosity score 0, reciprocity score 66,
    which is min(3,2)/max(3,2)*100 cut to an integer, and an overall
    score below 50. *)
Theorem demo_is_transactional :
  exists a,
    run demo = Ok a /\
    human_turns a = 3%Z /\ ai_turns a = 2%Z /\
    curiosity_score a = 0%Z /\
    reciprocity_score a = floor_percent (Z.min 3 2) (Z.max 3 2) /\
    reciprocity_score a = 66%Z /\
    (overall_score a < 50)%Z.
Proof.
  eexists. split; [vm_compute; reflexivity |].
  cbn [human_turns ai_turns curiosity_score reciprocity_score overall_score].
  repeat split; vm_compute; reflexivity.
Qed.

(** C3.  In the second demo transcript, annotation marks curiosity on
    turn 1, acknowledgment but not continuity on turn 3 and space on
    turn 5, and the overall score is above 50.  The transcript has four
    human and three ai turns. *)
Theorem demo2_is_connected :
  exists t1 t3 t5 a,
    nth_error (annotate (parse_conversation demo2)) 0 = Some t1 /\
    nth_error (annotate (parse_conversation demo2)) 2 = Some t3 /\
    nth_error (annotate (parse_conversation demo2)) 4 = Some t5 /\
    curiosity_shown t1 = true /\
    acknowledgment_given t3 = true /\ continuity_referenced t3 = false /\
    space_given t5 = true /\
    run demo2 = Ok a /\
    (50 < overall_score a)%Z /\
    human_turns a = 4%Z /\ ai_turns a = 3%Z.
Proof.
  do 4 eexists.
  split; [vm_compute; reflexivity |].
  split; [vm_compute; reflexivity |].
  split; [vm_compute; reflexivity |].
  cbn [curiosity_shown acknowledgment_given continuity_referenced space_given].
  do 4 (split; [reflexivity |]).
  split; [vm_compute; reflexivity |].
  cbn [overall_score human_turns ai_turns].
  repeat split.
Qed.

(* ================================================================== *)
(** ** [analyze_turn]: what it assigns and what it leaves *)

Section AnalyzeTurn.
Variable turn : Turn.
Variable prev_turn : option Turn.

Lemma analyze_turn_speaker : speaker (analyze_turn turn prev_turn) = speaker turn.
Proof.
  unfold analyze_turn.
  destruct (is_human turn), (prev_is_ai prev_turn); reflexivity.
Qed.

Lemma analyze_turn_text : text (analyze_turn turn prev_turn) = text turn.
Proof.
  unfold analyze_turn.
  destruct (is_human turn), (prev_is_ai prev_turn); reflexivity.
Qed.

Lemma analyze_turn_is_human : is_human (analyze_turn turn prev_turn) = is_human turn.
Proof. unfold is_human. now rewrite analyze_turn_speaker. Qed.

Lemma analyze_turn_is_ai : is_ai (analyze_turn turn prev_turn) = is_ai turn.
Proof. unfold is_ai. now rewrite analyze_turn_speaker. Qed.

(** The human branch. *)
Lemma analyze_turn_human :
  is_human turn = true ->
  analyze_turn turn prev_turn =
  mkTurn (speaker turn) (text turn)
    (any_search curiosity_patterns (PyStr.lower (text turn)))
    (if prev_is_ai prev_turn then ack_match turn else acknowledgment_given turn)
    (any_search space_patterns (PyStr.lower (text turn)))
    (any_search continuity_patterns (PyStr.lower (text turn)))
    (emotion_expressed turn) (uncertainty_allowed turn).
Proof.
  intros H. unfold analyze_turn, ack_match. rewrite H.
  destruct (prev_is_ai prev_turn); reflexivity.
Qed.

(** The other branch, taken by every speaker that is not ["human"]. *)
Lemma analyze_turn_other :
  is_human turn = false ->
  analyze_turn turn prev_turn =
  mkTurn (speaker turn) (text turn)
    (curiosity_shown turn) (acknowledgment_given turn)
    (space_given turn) (continuity_referenced turn)
    (any_search emotion_patterns (PyStr.lower (text turn)))
    (any_search uncertainty_patterns (PyStr.lower (text turn))).
Proof.
  intros H. unfold analyze_turn. rewrite H. reflexivity.
Qed.
End AnalyzeTurn.

(** A speaker is not both ["human"] and ["ai"]. *)
Lemma human_not_ai (t : Turn) : is_human t = true -> is_ai t = false.
Proof.
  unfold is_human, is_ai. intros H.
  apply String.eqb_eq in H. rewrite H. reflexivity.
Qed.


(** C10.  On a human turn whose previous turn is absent or not an ai
    turn, [analyze_turn] leaves [acknowledgment_given] at the value the
    turn came with, while it assigns [curiosity_shown], [space_given] and
    [continuity_referenced] from the text whatever they were. *)
Theorem ack_marker_frame (turn : Turn) (prev_turn : option Turn) :
  is_human turn = true ->
  prev_is_ai prev_turn = false ->
  acknowledgment_given (analyze_turn turn prev_turn) = acknowledgment_given turn /\
  curiosity_shown (analyze_turn turn prev_turn) =
    any_search curiosity_patterns (PyStr.lower (text turn)) /\
  space_given (analyze_turn turn prev_turn) =
    any_search space_patterns (PyStr.lower (text turn)) /\
  continuity_referenced (analyze_turn turn prev_turn) =
    any_search continuity_patterns (PyStr.lower (text turn)).
Proof.
  intros Hh Hp. rewrite (analyze_turn_human turn prev_turn Hh), Hp.
  repeat split.
Qed.

(** A marker the caller set survives: the turn has no previous turn and
    a text that matches no acknowledgment pattern, and comes back marked. *)
Lemma ack_marker_frame_witness :
  is_human preset_ack = true /\ prev_is_ai None = false /\
  ack_match preset_ack = false /\
  acknowledgment_given (analyze_turn preset_ack None) = true.
Proof.
  split; [reflexivity |]. split; [reflexivity |]. split; [reflexivity |].
  exact (eq_trans (proj1 (ack_marker_frame preset_ack None eq_refl eq_refl)) eq_refl).
Defined.

(* ================================================================== *)
(** ** The turns [parse_conversation] builds *)

Lemma fresh_new_Turn (s x : string) : fresh (new_Turn s x).
Proof. reflexivity. Qed.

Lemma flush_fresh (st : parse_state) :
  Forall fresh (turns st) -> Forall fresh (flush st).
Proof.
  intros H. unfold flush.
  destruct (speaker_set (current_speaker st)) as [sp |]; [| exact H].
  destruct (current_text st) as [| x xs]; [exact H |].
  apply Forall_app. split; [exact H |].
  constructor; [apply fresh_new_Turn | constructor].
Qed.

Lemma parse_line_fresh (st : parse_state) (raw : string) :
  Forall fresh (turns st) -> Forall fresh (turns (parse_line st raw)).
Proof.
  intros H. unfold parse_line.
  destruct (PyStr.strip raw) as [| c line]; [exact H |].
  destruct (re_match_ic human_label (String c line)); [now apply flush_fresh |].
  destruct (re_match_ic ai_label (String c line)); [now apply flush_fresh |].
  exact H.
Qed.

Lemma fold_parse_line_fresh (ls : list string) (st : parse_state) :
  Forall fresh (turns st) -> Forall fresh (turns (fold_left parse_line ls st)).
Proof.
  revert st. induction ls as [| l ls IH]; intros st H; cbn [fold_left].
  - exact H.
  - apply IH. now apply parse_line_fresh.
Qed.

Lemma parse_conversation_fresh (txt : string) :
  Forall fresh (parse_conversation txt).
Proof.
  unfold parse_conversation. apply flush_fresh, fold_parse_line_fresh.
  constructor.
Qed.

(* ================================================================== *)
(** ** The marker invariant *)

Lemma fresh_marker_inv (t : Turn) : fresh t -> marker_inv t.
Proof.
  intros H. unfold marker_inv. rewrite H. cbn. repeat split.
Qed.

(** One call of [analyze_turn] on a fresh turn assigns only the markers
    of the branch it takes. *)
Lemma analyze_turn_marker_inv (t : Turn) (p : option Turn) :
  fresh t -> marker_inv (analyze_turn t p).
Proof.
  intros H. unfold marker_inv.
  destruct (is_human t) eqn:Hh.
  - rewrite (analyze_turn_human t p Hh). split.
    + intros Ha. exfalso. unfold is_ai in Ha. unfold is_human in Hh.
      cbn in Ha. apply String.eqb_eq in Ha, Hh. rewrite Hh in Ha. discriminate.
    + intros _. rewrite H. cbn. split; reflexivity.
  - rewrite (analyze_turn_other t p Hh). split.
    + intros _. rewrite H. cbn. repeat split.
    + intros Hh'. unfold is_human in Hh, Hh'. cbn in Hh'. congruence.
Qed.

Lemma annotate_from_marker_inv (ts : list Turn) (p : option Turn) :
  Forall fresh ts -> Forall marker_inv (annotate_from p ts).
Proof.
  revert p. induction ts as [| t ts IH]; intros p H; cbn [annotate_from].
  - constructor.
  - inversion H as [| ? ? Ht Hts]; subst. constructor.
    + now apply analyze_turn_marker_inv.
    + now apply IH.
Qed.

Lemma Forall_firstn {A : Type} (P : A -> Prop) (k : nat) (l : list A) :
  Forall P l -> Forall P (firstn k l).
Proof.
  revert k. induction l as [| x l IH]; intros [| k] H; cbn; try constructor.
  - now inversion H.
  - apply IH. now inversion H.
Qed.

Lemma Forall_skipn {A : Type} (P : A -> Prop) (k : nat) (l : list A) :
  Forall P l -> Forall P (skipn k l).
Proof.
  revert k. induction l as [| x l IH]; intros [| k] H; cbn; try assumption.
  apply IH. now inversion H.
Qed.

(** C5.  The turns [parse_conversation] returns have every marker
    false, and after any number [k] of iterations of the annotation loop
    ([k = 0]: right after parsing; [k] at least the length: after the
    whole annotation) no turn carries a marker of the other speaker. *)
Theorem markers_fit_speaker (txt : string) (k : nat) :
  Forall fresh (parse_conversation txt) /\
  Forall marker_inv (annotate_steps k (parse_conversation txt)) /\
  Forall marker_inv (annotate (parse_conversation txt)).
Proof.
  pose proof (parse_conversation_fresh txt) as H.
  split; [exact H |]. split.
  - unfold annotate_steps, annotate. apply Forall_app. split.
    + apply annotate_from_marker_inv. now apply Forall_firstn.
    + apply Forall_skipn. revert H. apply Forall_impl. exact fresh_marker_inv.
  - now apply annotate_from_marker_inv.
Qed.

(* ================================================================== *)
(** ** Acknowledgment looks one turn back *)

Lemma prev_is_ai_analyzed (t : Turn) (p : option Turn) :
  prev_is_ai (Some (analyze_turn t p)) = is_ai t.
Proof. cbn [prev_is_ai]. apply analyze_turn_is_ai. Qed.

(** Turn [i] of the annotated list is turn [i] analyzed with a previous
    turn that is an ai turn exactly when turn [i - 1] of the input is. *)
Lemma annotate_from_nth (ts : list Turn) (p : option Turn) (i : nat) (t : Turn) :
  nth_error ts i = Some t ->
  exists q,
    nth_error (annotate_from p ts) i = Some (analyze_turn t q) /\
    prev_is_ai q = match i with
                   | O => prev_is_ai p
                   | S _ => prev_speaker_is_ai ts i
                   end.
Proof.
  revert p i. induction ts as [| x ts IH]; intros p i H.
  - destruct i; discriminate.
  - destruct i as [| i]; cbn [nth_error annotate_from] in *.
    + injection H as ->. exists p. split; reflexivity.
    + destruct (IH (Some (analyze_turn x p)) i H) as [q [Hq Hp]].
      exists q. split; [exact Hq |]. rewrite Hp.
      destruct i as [| i].
      * rewrite prev_is_ai_analyzed. reflexivity.
      * reflexivity.
Qed.

Lemma annotate_nth (ts : list Turn) (i : nat) (t : Turn) :
  nth_error ts i = Some t ->
  exists q,
    nth_error (annotate ts) i = Some (analyze_turn t q) /\
    prev_is_ai q = prev_speaker_is_ai ts i.
Proof.
  intros H. destruct (annotate_from_nth ts None i t H) as [q [Hq Hp]].
  exists q. split; [exact Hq |]. rewrite Hp. destruct i; reflexivity.
Qed.

(** The acknowledgment marker of an annotated human turn. *)
Lemma annotate_ack (ts : list Turn) (i : nat) (t : Turn) :
  nth_error ts i = Some t -> is_human t = true ->
  exists t',
    nth_error (annotate ts) i = Some t' /\
    acknowledgment_given t' =
      if prev_speaker_is_ai ts i then ack_match t else acknowledgment_given t.
Proof.
  intros H Hh. destruct (annotate_nth ts i t H) as [q [Hq Hp]].
  exists (analyze_turn t q). split; [exact Hq |].
  rewrite (analyze_turn_human t q Hh), Hp. reflexivity.
Qed.

(** C6, as stated, fails: two one-turn conversations with the same human
    text and no previous turn end with different acknowledgment markers
    when one of the turns came in with the marker set, and that marker
    is true although no previous turn exists. *)
Lemma ack_depends_on_incoming_marker :
  text preset_ack = text (reset_markers preset_ack) /\
  is_human preset_ack = true /\ is_human (reset_markers preset_ack) = true /\
  prev_speaker_is_ai [preset_ack] 0 = false /\
  prev_speaker_is_ai [reset_markers preset_ack] 0 = false /\
  option_map acknowledgment_given (nth_error (annotate [preset_ack]) 0) = Some true /\
  option_map acknowledgment_given
    (nth_error (annotate [reset_markers preset_ack]) 0) = Some false.
Proof. repeat split. Qed.

(** C6, amended.  For human turns at index [i] of two conversations
    that come in with [acknowledgment_given] false, have the same text
    and agree on whether the turn before index [i] exists and is an ai
    turn, the annotated acknowledgment markers are equal, and the marker
    is true exactly when the previous turn exists with speaker ai and the
    lower-cased text matches an acknowledgment pattern. *)
Theorem ack_depends_on_text_and_prev_speaker
  (ts1 ts2 : list Turn) (i : nat) (t1 t2 : Turn) :
  nth_error ts1 i = Some t1 -> nth_error ts2 i = Some t2 ->
  is_human t1 = true -> is_human t2 = true ->
  acknowledgment_given t1 = false -> acknowledgment_given t2 = false ->
  text t1 = text t2 ->
  prev_speaker_is_ai ts1 i = prev_speaker_is_ai ts2 i ->
  exists t1' t2',
    nth_error (annotate ts1) i = Some t1' /\
    nth_error (annotate ts2) i = Some t2' /\
    acknowledgment_given t1' = acknowledgment_given t2' /\
    (acknowledgment_given t1' = true <->
     prev_speaker_is_ai ts1 i = true /\
     any_search ack_patterns (PyStr.lower (text t1)) = true).
Proof.
  intros H1 H2 Hh1 Hh2 Ha1 Ha2 Htxt Hprev.
  destruct (annotate_ack ts1 i t1 H1 Hh1) as [t1' [Hn1 Hk1]].
  destruct (annotate_ack ts2 i t2 H2 Hh2) as [t2' [Hn2 Hk2]].
  exists t1', t2'. split; [exact Hn1 |]. split; [exact Hn2 |].
  rewrite Hk1, Hk2, <- Hprev, Ha1, Ha2. unfold ack_match. rewrite <- Htxt.
  split; [reflexivity |].
  destruct (prev_speaker_is_ai ts1 i).
  - split; [intros H; split; [reflexivity | exact H] | intros [_ H]; exact H].
  - split; [discriminate | intros [H _]; discriminate].
Qed.

Lemma ack_depends_on_text_and_prev_speaker_witness :
  exists t1' t2',
    nth_error (annotate talk1) 1 = Some t1' /\
    nth_error (annotate talk2) 1 = Some t2' /\
    acknowledgment_given t1' = acknowledgment_given t2' /\
    (acknowledgment_given t1' = true <->
     prev_speaker_is_ai talk1 1 = true /\
     any_search ack_patterns (PyStr.lower "Wow, I see") = true).
Proof.
  exact (ack_depends_on_text_and_prev_speaker talk1 talk2 1
           (new_Turn "human" "Wow, I see") (new_Turn "human" "Wow, I see")
           eq_refl eq_refl eq_refl eq_refl eq_refl eq_refl eq_refl eq_refl).
Defined.

(* ================================================================== *)
(** ** The analysis reads only the markers of a turn's own speaker *)











(* ================================================================== *)
(** ** Running the analysis again after a reset *)










(* ================================================================== *)
(** ** One turn per label line *)

Lemma label_speaker_set (l : string) :
  speaker_set (Some (label_speaker l)) = Some (label_speaker l).
Proof. unfold label_speaker. destruct (re_match_ic human_label l); reflexivity. Qed.

Lemma parsed_flush (st : parse_state) (labels : list string) :
  parsed st labels -> Forall2 turn_of_label (flush st) labels.
Proof.
  intros H. destruct H as [frags | ts labels l conts Hts]; unfold flush;
    cbn [current_speaker current_text turns].
  - constructor.
  - rewrite label_speaker_set. apply Forall2_app; [exact Hts |].
    constructor; [| constructor]. split; [reflexivity |].
    exists conts. reflexivity.
Qed.

Lemma is_label_empty : is_label EmptyString = false.
Proof. reflexivity. Qed.

Lemma parsed_step (st : parse_state) (labels : list string) (raw : string) :
  parsed st labels ->
  parsed (parse_line st raw)
         (labels ++ filter is_label [PyStr.strip raw])%list.
Proof.
  intros H. unfold parse_line. cbn [filter].
  destruct (PyStr.strip raw) as [| c line] eqn:E.
  - rewrite is_label_empty, app_nil_r. exact H.
  - set (ln := String c line) in *.
    unfold is_label.
    destruct (re_match_ic human_label ln) eqn:Hh; cbn [orb].
    + replace (Some "human") with (Some (label_speaker ln))
        by (unfold label_speaker; now rewrite Hh).
      replace (re_sub_ic human_label_ws ln) with (strip_label ln)
        by (unfold strip_label; now rewrite Hh).
      apply parsed_open. now apply parsed_flush.
    + destruct (re_match_ic ai_label ln) eqn:Ha.
      * replace (Some "ai") with (Some (label_speaker ln))
          by (unfold label_speaker; now rewrite Hh).
        replace (re_sub_ic ai_label_ws ln) with (strip_label ln)
          by (unfold strip_label; now rewrite Hh).
        apply parsed_open. now apply parsed_flush.
      * rewrite app_nil_r.
        destruct H as [frags | ts labels l conts Hts];
          cbn [turns current_speaker current_text].
        -- apply parsed_none.
        -- change ((strip_label l :: conts) ++ [ln])%list
             with (strip_label l :: (conts ++ [ln]))%list.
           now apply parsed_open.
Qed.

Lemma parsed_fold (raws : list string) (st : parse_state) (labels : list string) :
  parsed st labels ->
  parsed (fold_left parse_line raws st)
         (labels ++ filter is_label (map PyStr.strip raws))%list.
Proof.
  revert st labels. induction raws as [| raw raws IH]; intros st labels H;
    cbn [fold_left map].
  - cbn [filter]. now rewrite app_nil_r.
  - pose proof (IH _ _ (parsed_step st labels raw H)) as H'.
    rewrite <- app_assoc in H'.
    replace (filter is_label (PyStr.strip raw :: map PyStr.strip raws))
      with (filter is_label [PyStr.strip raw] ++
            filter is_label (map PyStr.strip raws))%list.
    + exact H'.
    + cbn [filter]. destruct (is_label (PyStr.strip raw)); reflexivity.
Qed.

Lemma parse_conversation_labels (txt : string) :
  Forall2 turn_of_label (parse_conversation txt) (label_lines txt).
Proof.
  unfold parse_conversation, label_lines. apply parsed_flush.
  apply (parsed_fold (lines_of txt) (mkParseState [] None []) []).
  apply parsed_none.
Qed.

(* ================================================================== *)
(** ** The label patterns, read as word lists *)

Lemma bt_word {A : Type} (ic : bool) (n : nat) (w s : string)
  (k : string -> option A) :
  w <> EmptyString ->
  Re.bt ic n (word w) s k =
  match skip_word ic w s with Some s' => k s' | None => None end.
Proof.
  revert s. induction w as [| p w IH]; intros s Hw; [congruence |].
  destruct w as [| q w].
  - cbn. destruct s as [| c s]; [reflexivity |].
    destruct (Re.chr_matches ic p c); reflexivity.
  - change (word (String p (String q w)))
      with (Re.Seq (Re.Chr p) (word (String q w))).
    cbn [Re.bt skip_word]. destruct s as [| c s]; [reflexivity |].
    destruct (Re.chr_matches ic p c); [| reflexivity].
    apply IH. discriminate.
Qed.

Lemma bt_words {A : Type} (ic : bool) (n : nat) (ws : list string) (s : string)
  (k : string -> option A) :
  ws <> [] -> Forall (fun w => w <> EmptyString) ws ->
  Re.bt ic n (words ws) s k =
  first_some (fun w => match skip_word ic w s with
                       | Some s' => k s'
                       | None => None
                       end) ws.
Proof.
  induction ws as [| w ws IH]; intros Hne Hall; [congruence |].
  inversion Hall as [| ? ? Hw Hws]; subst.
  destruct ws as [| w2 ws].
  - cbn [words first_some]. rewrite (bt_word ic n w s k Hw).
    destruct (skip_word ic w s) as [s' |]; [| reflexivity].
    destruct (k s'); reflexivity.
  - change (words (w :: w2 :: ws)) with (Re.Alt (word w) (words (w2 :: ws))).
    cbn [Re.bt first_some]. rewrite (bt_word ic n w s k Hw).
    rewrite IH; [| discriminate | exact Hws].
    destruct (skip_word ic w s) as [s' |]; reflexivity.
Qed.

Lemma first_some_ext {A : Type} (f g : string -> option A) (ws : list string) :
  (forall w, f w = g w) -> first_some f ws = first_some g ws.
Proof.
  intros H. induction ws as [| w ws IH]; [reflexivity |].
  cbn [first_some]. now rewrite H, IH.
Qed.

(** A label pattern [^(w1|...|wn):] matches exactly the subjects that
    start with one of the words and a colon. *)
Lemma label_matches (ws : list string) (s : string) :
  ws <> [] -> Forall (fun w => w <> EmptyString) ws ->
  Re.matches true (Re.Seq Re.Bol (Re.Seq (words ws) (Re.Chr ":"))) s =
  match after_label ws s with Some _ => true | None => false end.
Proof.
  intros Hne Hall. unfold Re.matches, Re.match_rest, after_label.
  cbn [Re.bt]. rewrite Nat.eqb_refl, (bt_words _ _ _ _ _ Hne Hall).
  rewrite (first_some_ext _
             (fun w => match skip_word true w s with
                       | Some rest => skip_word true ":" rest
                       | None => None
                       end) ws); [reflexivity |].
  intros w.
  destruct (skip_word true w s) as [[| c r] |]; reflexivity.
Qed.

Lemma words_nonempty_human : Forall (fun w => w <> EmptyString) human_words.
Proof. repeat constructor; discriminate. Qed.

Lemma words_nonempty_ai : Forall (fun w => w <> EmptyString) ai_words.
Proof. repeat constructor; discriminate. Qed.

Lemma human_label_words (s : string) :
  re_match_ic human_label s =
  match after_label human_words s with Some _ => true | None => false end.
Proof.
  rewrite <- (label_matches human_words s);
    [reflexivity | discriminate | exact words_nonempty_human].
Qed.

Lemma ai_label_words (s : string) :
  re_match_ic ai_label s =
  match after_label ai_words s with Some _ => true | None => false end.
Proof.
  rewrite <- (label_matches ai_words s);
    [reflexivity | discriminate | exact words_nonempty_ai].
Qed.










(* ================================================================== *)
(** ** The empty conversation *)

Lemma analyze_empty : analyze_conversation [] = Ok empty_analysis.
Proof. vm_compute. reflexivity. Qed.



(** A text with lines but no label is an empty conversation too. *)
Example unlabeled_text_is_empty :
  label_lines ("hello there" ++ nl ++ "Humans: are not a label" ++ nl) = [].
Proof. reflexivity. Qed.

(** The all-zero report shows the zero scores and the zero counts, and
    none of the three sections. *)
Example empty_report_lines :
  PyStr.contains "Overall Connection Score:   0/100" (format_report empty_analysis) = true /\
  PyStr.contains "Reciprocity:      0/100" (format_report empty_analysis) = true /\
  PyStr.contains "Total turns:   0  (Human: 0, AI: 0)" (format_report empty_analysis) = true /\
  PyStr.contains "HIGHLIGHTS" (format_report empty_analysis) = false.
Proof. vm_compute. repeat split. Qed.

(* ================================================================== *)
(** ** The object-level loop on distinct objects *)

Lemma store_set_same (st : store) (r : nat) (t x : Turn) :
  nth_error st r = Some x -> nth_error (store_set st r t) r = Some t.
Proof.
  revert r. induction st as [| y st IH]; intros [| r] H; cbn in *;
    try discriminate; [reflexivity | now apply IH].
Qed.

Lemma store_set_other (st : store) (r q : nat) (t : Turn) :
  q <> r -> nth_error (store_set st r t) q = nth_error st q.
Proof.
  revert r q. induction st as [| y st IH]; intros r q H.
  - destruct r; reflexivity.
  - destruct r as [| r], q as [| q]; cbn; try reflexivity; try congruence.
    apply IH. congruence.
Qed.

Lemma read_store_set (st : store) (r : nat) (t : Turn) (refs : list nat) :
  ~ In r refs -> read (store_set st r t) refs = read st refs.
Proof.
  induction refs as [| q refs IH]; intros H; cbn [read]; [reflexivity |].
  rewrite store_set_other by (intros ->; apply H; now left).
  rewrite IH by (intros Hin; apply H; now right). reflexivity.
Qed.

(** The loop writes only to the objects it is given. *)
Lemma annotate_objects_other (refs : list nat) (st : store) (prev : option nat)
  (q : nat) :
  ~ In q refs ->
  nth_error (annotate_objects st prev refs) q = nth_error st q.
Proof.
  revert st prev. induction refs as [| r refs IH]; intros st prev H;
    cbn [annotate_objects]; [reflexivity |].
  assert (Hq : q <> r) by (intros ->; apply H; now left).
  assert (Hr : ~ In q refs) by (intros Hin; apply H; now right).
  destruct (nth_error st r) as [t |].
  - rewrite IH by exact Hr. now apply store_set_other.
  - now apply IH.
Qed.

Lemma read_annotate_objects_other (refs done : list nat) (st : store)
  (prev : option nat) :
  (forall q, In q done -> ~ In q refs) ->
  read (annotate_objects st prev refs) done = read st done.
Proof.
  induction done as [| q done IH]; intros H; cbn [read]; [reflexivity |].
  rewrite annotate_objects_other by (apply H; now left).
  rewrite IH by (intros q' Hq'; apply H; now right). reflexivity.
Qed.

(** On distinct objects the loop computes [annotate_from]. *)
Lemma annotate_objects_distinct (refs : list nat) (st : store) (prev : option nat) :
  NoDup refs ->
  (forall r, In r refs -> nth_error st r <> None) ->
  read (annotate_objects st prev refs) refs =
  annotate_from (deref st prev) (read st refs).
Proof.
  revert st prev. induction refs as [| r refs IH]; intros st prev Hnd Hval;
    [reflexivity |].
  inversion Hnd as [| ? ? Hr Hnd']; subst.
  cbn [annotate_objects read].
  destruct (nth_error st r) as [t |] eqn:Et;
    [| exfalso; apply (Hval r); [now left | exact Et]].
  set (t' := analyze_turn t (deref st prev)).
  rewrite annotate_objects_other by exact Hr.
  rewrite (store_set_same st r t' t Et).
  cbn [annotate_from]. fold t'. f_equal.
  rewrite IH.
  - cbn [deref]. rewrite (store_set_same st r t' t Et).
    now rewrite read_store_set.
  - exact Hnd'.
  - intros q Hq. rewrite store_set_other.
    + apply Hval. now right.
    + intros ->. contradiction.
Qed.

(** The analysis of a conversation of distinct objects is the analysis
    of the list of their values. *)
Lemma analyze_objects_distinct (st : store) (refs : list nat) :
  NoDup refs ->
  (forall r, In r refs -> nth_error st r <> None) ->
  aggregate (read (annotate_objects st None refs) refs) =
  analyze_conversation (read st refs).
Proof.
  intros Hnd Hval. unfold analyze_conversation, annotate.
  now rewrite annotate_objects_distinct.
Qed.

(** An object listed twice is analyzed twice: the acknowledgment the
    second visit finds shows on the first position too. *)
Example shared_object_is_marked_twice :
  map acknowledgment_given (read (annotate_objects shared_store None shared_refs) shared_refs)
    = [true; false; true] /\
  map acknowledgment_given (annotate (read shared_store shared_refs))
    = [false; false; true].
Proof. split; reflexivity. Qed.

(* ================================================================== *)
(** ** Facts on binary64 rounding *)

Section Rounding.
Local Open Scope Z_scope.

Lemma digits2_pos_bounds (p : positive) :
  2 ^ (Zpos (digits2_pos p) - 1) <= Zpos p < 2 ^ Zpos (digits2_pos p).
Proof.
  induction p as [p IH | p IH |]; cbn [digits2_pos].
  - rewrite Pos2Z.inj_succ.
    replace (Z.succ (Zpos (digits2_pos p)) - 1) with (Z.succ (Zpos (digits2_pos p) - 1)) by lia.
    rewrite !Z.pow_succ_r by lia. lia.
  - rewrite Pos2Z.inj_succ.
    replace (Z.succ (Zpos (digits2_pos p)) - 1) with (Z.succ (Zpos (digits2_pos p) - 1)) by lia.
    rewrite !Z.pow_succ_r by lia. lia.
  - cbn. lia.
Qed.

Lemma Zdigits2_bounds (n : Z) :
  0 < n -> 2 ^ (Zdigits2 n - 1) <= n < 2 ^ Zdigits2 n /\ 0 < Zdigits2 n.
Proof.
  destruct n as [| p | p]; try lia. intros _. cbn [Zdigits2].
  split; [apply digits2_pos_bounds | lia].
Qed.

(** The number of binary digits is determined by the two powers of two
    around the number. *)
Lemma Zdigits2_unique (n d : Z) :
  2 ^ (d - 1) <= n < 2 ^ d -> 0 < d -> Zdigits2 n = d.
Proof.
  intros [Hlo Hhi] Hd.
  assert (Hn : 0 < n) by (pose proof (Z.pow_pos_nonneg 2 (d - 1)); lia).
  destruct (Zdigits2_bounds n Hn) as [[Hlo' Hhi'] Hd'].
  destruct (Z.lt_trichotomy (Zdigits2 n) d) as [H | [H | H]]; [| exact H |].
  - assert (2 ^ Zdigits2 n <= 2 ^ (d - 1)) by (apply Z.pow_le_mono_r; lia). lia.
  - assert (2 ^ d <= 2 ^ (Zdigits2 n - 1)) by (apply Z.pow_le_mono_r; lia). lia.
Qed.

Lemma shr_fexp_keep (m e : Z) (l : location) :
  Zdigits2 m = 53 -> -1074 <= e ->
  shr_fexp prec emax m e l = (shr_record_of_loc m l, e).
Proof.
  intros Hd He. unfold shr_fexp, fexp, emin, prec, emax. rewrite Hd.
  replace (Z.max (53 + e - 53) (3 - 1024 - 53) - e) with 0 by lia.
  reflexivity.
Qed.

Lemma shr_fexp_once (m e : Z) (l : location) :
  Zdigits2 m = 54 -> -1075 <= e ->
  shr_fexp prec emax m e l = (shr_1 (shr_record_of_loc m l), e + 1).
Proof.
  intros Hd He. unfold shr_fexp, fexp, emin, prec, emax. rewrite Hd.
  replace (Z.max (54 + e - 53) (3 - 1024 - 53) - e) with 1 by lia.
  reflexivity.
Qed.

Lemma shr_m_of_loc (m : Z) (l : location) : shr_m (shr_record_of_loc m l) = m.
Proof. destruct l as [| []]; reflexivity. Qed.

(** One shift halves the mantissa. *)
Lemma shr_1_halves (m : Z) (l : location) :
  0 < m -> shr_m (shr_1 (shr_record_of_loc m l)) = m / 2.
Proof.
  intros Hm. destruct m as [| p | p]; try lia.
  assert (H : shr_m (shr_1 (shr_record_of_loc (Zpos p) l)) = Z.div2 (Zpos p))
    by (destruct l as [| []], p; reflexivity).
  rewrite H. apply Z.div2_div.
Qed.

(** Rounding to nearest keeps the mantissa or adds one. *)
Lemma round_nearest_even_cases (m : Z) (l : location) :
  round_nearest_even m l = m \/ round_nearest_even m l = m + 1.
Proof.
  destruct l as [| []]; cbn; auto. destruct (Z.even m); auto.
Qed.

Lemma div_between (m d k : Z) : 0 < d -> k * d <= m < (k + 1) * d -> m / d = k.
Proof.
  intros Hd H. symmetry. apply (Z.div_unique m d k (m - k * d)); lia.
Qed.

(** The second normalisation of [binary_round_aux], on a mantissa of 53
    digits or on 2^53, keeps the integer part. *)
Lemma round_finish (m1 e1 k : Z) :
  4503599627370496 <= m1 <= 9007199254740992 ->
  -1074 <= e1 <= -2 ->
  k * 2 ^ (- e1) <= m1 < (k + 1) * 2 ^ (- e1) ->
  exists p e2,
    shr_fexp prec emax m1 e1 loc_Exact = (Build_shr_record (Zpos p) false false, e2) /\
    -1074 <= e2 <= -1 /\
    Zpos p / 2 ^ (- e2) = k.
Proof.
  intros Hm He Hk.
  destruct (Z.eq_dec m1 9007199254740992) as [-> | Hne].
  - rewrite shr_fexp_once; [| reflexivity | lia].
    exists 4503599627370496%positive, (e1 + 1). split; [reflexivity |].
    split; [lia |].
    assert (Hp : 2 ^ (- e1) = 2 * 2 ^ (- (e1 + 1))).
    { replace (- e1) with (Z.succ (- (e1 + 1))) by lia.
      rewrite Z.pow_succ_r by lia. reflexivity. }
    assert (0 < 2 ^ (- (e1 + 1))) by (apply Z.pow_pos_nonneg; lia).
    apply div_between; [assumption |]. rewrite Hp in Hk. lia.
  - assert (Hd : Zdigits2 m1 = 53).
    { apply Zdigits2_unique; [| lia].
      change (2 ^ (53 - 1)) with 4503599627370496.
      change (2 ^ 53) with 9007199254740992. lia. }
    rewrite shr_fexp_keep; [| exact Hd | lia].
    destruct m1 as [| p | p]; try lia.
    exists p, e1. split; [reflexivity |]. split; [lia |].
    assert (0 < 2 ^ (- e1)) by (apply Z.pow_pos_nonneg; lia).
    now apply div_between.
Qed.

Lemma loc_of_shr_record_of_loc (m : Z) (l : location) :
  loc_of_shr_record (shr_record_of_loc m l) = l.
Proof. destruct l as [| []]; reflexivity. Qed.

(** [binary_round_aux] on a quotient of 53 or 54 digits: the double it
    returns has the integer part [k] whenever the quotient, taken with
    its exponent, lies far enough inside the interval from [k] to
    [k + 1]. *)
Lemma round_keeps_floor (q e k : Z) (l : location) :
  4503599627370496 <= q < 18014398509481984 ->
  -1074 <= e <= -3 ->
  k * 2 ^ (- e) <= q ->
  q + 3 <= (k + 1) * 2 ^ (- e) ->
  exists m e2,
    binary_round_aux prec emax false q e l = S754_finite false m e2 /\
    e2 < 0 /\ Zpos m / 2 ^ (- e2) = k.
Proof.
  intros Hq He Hlo Hhi.
  assert (HP : 0 < 2 ^ (- e)) by (apply Z.pow_pos_nonneg; lia).
  unfold binary_round_aux.
  destruct (Z_lt_le_dec q 9007199254740992) as [Hs | Hs].
  - (* 53 digits: no shift before rounding *)
    assert (Hd : Zdigits2 q = 53).
    { apply Zdigits2_unique; [| lia].
      change (2 ^ (53 - 1)) with 4503599627370496.
      change (2 ^ 53) with 9007199254740992. lia. }
    rewrite shr_fexp_keep; [| exact Hd | lia].
    rewrite shr_m_of_loc, loc_of_shr_record_of_loc.
    destruct (round_finish (round_nearest_even q l) e k) as [p [e2 [E [He2 Hv]]]].
    + destruct (round_nearest_even_cases q l) as [-> | ->]; lia.
    + lia.
    + destruct (round_nearest_even_cases q l) as [-> | ->]; lia.
    + rewrite E. cbn [shr_m]. unfold prec, emax.
      replace (e2 <=? 1024 - 53) with true by (symmetry; apply Z.leb_le; lia).
      exists p, e2. split; [reflexivity |]. split; [lia | exact Hv].
  - (* 54 digits: one shift before rounding *)
    assert (Hd : Zdigits2 q = 54).
    { apply Zdigits2_unique; [| lia].
      change (2 ^ (54 - 1)) with 9007199254740992.
      change (2 ^ 54) with 18014398509481984. lia. }
    rewrite shr_fexp_once; [| exact Hd | lia].
    rewrite (shr_1_halves q l) by lia.
    set (l' := loc_of_shr_record (shr_1 (shr_record_of_loc q l))).
    assert (Hp : 2 ^ (- e) = 2 * 2 ^ (- (e + 1))).
    { replace (- e) with (Z.succ (- (e + 1))) by lia.
      rewrite Z.pow_succ_r by lia. reflexivity. }
    assert (HP' : 0 < 2 ^ (- (e + 1))) by (apply Z.pow_pos_nonneg; lia).
    rewrite Hp in Hlo, Hhi.
    assert (Hh : 4503599627370496 <= q / 2 < 9007199254740992)
      by (split; [apply Z.div_le_lower_bound | apply Z.div_lt_upper_bound]; lia).
    assert (Hl2 : k * 2 ^ (- (e + 1)) <= q / 2)
      by (apply Z.div_le_lower_bound; lia).
    assert (Hh2 : q / 2 + 1 < (k + 1) * 2 ^ (- (e + 1))).
    { assert (q / 2 < (k + 1) * 2 ^ (- (e + 1)) - 1); [| lia].
      apply Z.div_lt_upper_bound; lia. }
    destruct (round_finish (round_nearest_even (q / 2) l') (e + 1) k)
      as [p [e2 [E [He2 Hv]]]].
    + destruct (round_nearest_even_cases (q / 2) l') as [-> | ->]; lia.
    + lia.
    + destruct (round_nearest_even_cases (q / 2) l') as [-> | ->]; lia.
    + rewrite E. cbn [shr_m]. unfold prec, emax.
      replace (e2 <=? 1024 - 53) with true by (symmetry; apply Z.leb_le; lia).
      exists p, e2. split; [reflexivity |]. split; [lia | exact Hv].
Qed.

(** *** True division of two positive integers *)

Lemma div_eucl_pair (a b : Z) : Z.div_eucl a b = (a / b, a mod b).
Proof.
  unfold Z.div, Z.modulo. destruct (Z.div_eucl a b). reflexivity.
Qed.

Lemma new_location_zero (n : Z) : new_location n 0 = loc_Exact.
Proof.
  unfold new_location. destruct (Z.even n); reflexivity.
Qed.

(** The quotient [SFdiv_core_binary] hands to the rounding: the
    dividend is shifted left until the quotient has 53 or 54 digits. *)
Lemma div_core_shifted (a b : Z) :
  0 < a < 2251799813685248 -> 0 < b < 2251799813685248 ->
  let s := 53 + Zdigits2 b - Zdigits2 a in
  Zdigits2 a <= 51 /\ 3 <= s <= 104 /\
  SFdiv_core_binary prec emax a 0 b 0 =
    (a * 2 ^ s / b, - s, new_location b ((a * 2 ^ s) mod b)).
Proof.
  intros Ha Hb s.
  destruct (Zdigits2_bounds a (proj1 Ha)) as [[Ha1 Ha2] Hda].
  destruct (Zdigits2_bounds b (proj1 Hb)) as [[Hb1 Hb2] Hdb].
  assert (Hda' : Zdigits2 a <= 51).
  { destruct (Z_le_gt_dec (Zdigits2 a) 51) as [H | H]; [exact H | exfalso].
    assert (2 ^ 51 <= 2 ^ (Zdigits2 a - 1)) by (apply Z.pow_le_mono_r; lia).
    change (2 ^ 51) with 2251799813685248 in *. lia. }
  assert (Hdb' : Zdigits2 b <= 51).
  { destruct (Z_le_gt_dec (Zdigits2 b) 51) as [H | H]; [exact H | exfalso].
    assert (2 ^ 51 <= 2 ^ (Zdigits2 b - 1)) by (apply Z.pow_le_mono_r; lia).
    change (2 ^ 51) with 2251799813685248 in *. lia. }
  split; [exact Hda' |]. split; [unfold s; lia |].
  unfold SFdiv_core_binary, fexp, emin, prec, emax.
  replace (Z.min (Z.max (Zdigits2 a + 0 - (Zdigits2 b + 0) - 53) (3 - 1024 - 53)) (0 - 0))
    with (- s) by (unfold s; lia).
  replace (0 - 0 - - s) with s by lia.
  destruct s as [| ps | ps] eqn:Es; try (unfold s in Es; lia).
  rewrite Z.shiftl_mul_pow2 by lia. rewrite div_eucl_pair. reflexivity.
Qed.

Lemma int_of_float_negative_exponent (m : positive) (e : Z) :
  e < 0 -> int_of_float (S754_finite false m e) = Ok (Zpos m / 2 ^ (- e)).
Proof. destruct e; try lia. reflexivity. Qed.

(** [int(a / b)] is the integer quotient, for positive integers below
    2^51. *)
Lemma int_truediv_floor_pos (a b : Z) :
  0 < a < 2251799813685248 -> 0 < b < 2251799813685248 ->
  exists x, int_truediv a b = Ok x /\ int_of_float x = Ok (a / b).
Proof.
  intros Ha Hb.
  destruct (div_core_shifted a b Ha Hb) as [Hda' [Hs Hcore]].
  set (s := 53 + Zdigits2 b - Zdigits2 a) in *.
  destruct (Zdigits2_bounds a (proj1 Ha)) as [[Ha1 Ha2] Hda].
  destruct (Zdigits2_bounds b (proj1 Hb)) as [[Hb1 Hb2] Hdb].
  assert (HP : 0 < 2 ^ s) by (apply Z.pow_pos_nonneg; lia).
  (* powers of two around the shifted dividend *)
  assert (Hlow : 4503599627370496 * 2 ^ Zdigits2 b <= a * 2 ^ s).
  { replace (4503599627370496 * 2 ^ Zdigits2 b) with (2 ^ (Zdigits2 a - 1) * 2 ^ s).
    - apply Z.mul_le_mono_nonneg_r; lia.
    - rewrite <- Z.pow_add_r by lia. change 4503599627370496 with (2 ^ 52).
      rewrite <- Z.pow_add_r by lia. f_equal. unfold s. lia. }
  assert (Hupp : a * 2 ^ s < 18014398509481984 * 2 ^ (Zdigits2 b - 1)).
  { replace (18014398509481984 * 2 ^ (Zdigits2 b - 1)) with (2 ^ Zdigits2 a * 2 ^ s).
    - apply Z.mul_lt_mono_pos_r; lia.
    - rewrite <- Z.pow_add_r by lia. change 18014398509481984 with (2 ^ 54).
      rewrite <- Z.pow_add_r by lia. f_equal. unfold s. lia. }
  assert (H2b : 2 * b < 2 ^ s).
  { assert (2 ^ (Zdigits2 b + 1) <= 2 ^ s) by (apply Z.pow_le_mono_r; unfold s; lia).
    rewrite Z.pow_add_r in * by lia. change (2 ^ 1) with 2 in *. lia. }
  assert (Hq : 4503599627370496 <= a * 2 ^ s / b < 18014398509481984).
  { split.
    - apply Z.div_le_lower_bound; [lia |].
      assert (b * 4503599627370496 <= 4503599627370496 * 2 ^ Zdigits2 b) by lia. lia.
    - apply Z.div_lt_upper_bound; [lia |].
      assert (18014398509481984 * 2 ^ (Zdigits2 b - 1) <= b * 18014398509481984) by lia.
      lia. }
  pose proof (Z.mul_div_le a b (proj1 Hb)) as Hk1.
  pose proof (Z.mul_succ_div_gt a b (proj1 Hb)) as Hk2.
  set (k := a / b) in *.
  assert (Hlo : k * 2 ^ (- - s) <= a * 2 ^ s / b).
  { replace (- - s) with s by lia.
    apply Z.div_le_lower_bound; [lia |].
    replace (b * (k * 2 ^ s)) with ((b * k) * 2 ^ s) by ring.
    apply Z.mul_le_mono_nonneg_r; lia. }
  assert (Hhi : a * 2 ^ s / b + 3 <= (k + 1) * 2 ^ (- - s)).
  { replace (- - s) with s by lia.
    assert (a * 2 ^ s / b < (k + 1) * 2 ^ s - 2); [| lia].
    apply Z.div_lt_upper_bound; [lia |].
    assert ((a + 1) * 2 ^ s <= (b * Z.succ k) * 2 ^ s)
      by (apply Z.mul_le_mono_nonneg_r; lia).
    replace (b * ((k + 1) * 2 ^ s - 2)) with ((b * Z.succ k) * 2 ^ s - 2 * b) by ring.
    replace ((a + 1) * 2 ^ s) with (a * 2 ^ s + 2 ^ s) in * by ring.
    lia. }
  destruct (round_keeps_floor (a * 2 ^ s / b) (- s) k
              (new_location b ((a * 2 ^ s) mod b)) Hq ltac:(lia) Hlo Hhi)
    as [m [e2 [E [He2 Hv]]]].
  exists (S754_finite false m e2). split.
  - unfold int_truediv.
    replace (b =? 0) with false by (symmetry; apply Z.eqb_neq; lia).
    replace (a <? 0) with false by (symmetry; apply Z.ltb_ge; lia).
    replace (b <? 0) with false by (symmetry; apply Z.ltb_ge; lia).
    rewrite !Z.abs_eq by lia. rewrite Hcore. cbn [xorb].
    rewrite E. reflexivity.
  - rewrite int_of_float_negative_exponent by exact He2. now rewrite Hv.
Qed.

(** *** The quotients 0 / b and n / n *)

Lemma iter_pos_shr_1_zero (p : positive) :
  iter_pos shr_1 p (Build_shr_record 0 false false) = Build_shr_record 0 false false.
Proof.
  induction p as [p IH | p IH |]; cbn [iter_pos].
  - change (shr_1 (Build_shr_record 0 false false))
      with (Build_shr_record 0 false false).
    now rewrite !IH.
  - now rewrite !IH.
  - reflexivity.
Qed.

Lemma shr_fexp_zero (e : Z) :
  fst (shr_fexp prec emax 0 e loc_Exact) = Build_shr_record 0 false false.
Proof.
  unfold shr_fexp, shr. cbn [shr_record_of_loc].
  destruct (fexp prec emax (Zdigits2 0 + e) - e); cbn [fst];
    [reflexivity | apply iter_pos_shr_1_zero | reflexivity].
Qed.

Lemma round_zero (e : Z) :
  binary_round_aux prec emax false 0 e loc_Exact = S754_zero false.
Proof.
  unfold binary_round_aux.
  pose proof (shr_fexp_zero e) as H1.
  destruct (shr_fexp prec emax 0 e loc_Exact) as [mrs e1]. cbn [fst] in H1.
  subst mrs. cbn [shr_m loc_of_shr_record round_nearest_even].
  pose proof (shr_fexp_zero e1) as H2.
  destruct (shr_fexp prec emax 0 e1 loc_Exact) as [mrs e2]. cbn [fst] in H2.
  subst mrs. reflexivity.
Qed.

(** [0 / b] is [0.0]. *)
Lemma int_truediv_zero (b : Z) : 0 < b -> int_truediv 0 b = Ok (S754_zero false).
Proof.
  intros Hb. unfold int_truediv.
  replace (b =? 0) with false by (symmetry; apply Z.eqb_neq; lia).
  replace (b <? 0) with false by (symmetry; apply Z.ltb_ge; lia).
  rewrite (Z.abs_eq b) by lia.
  unfold SFdiv_core_binary, Z.abs.
  set (e := Z.min _ _).
  assert (Hm : match 0 - 0 - e with
               | 0 => 0
               | Z.pos _ => Z.shiftl 0 (0 - 0 - e)
               | Z.neg _ => 0
               end = 0)
    by (destruct (0 - 0 - e); [reflexivity | apply Z.shiftl_0_l | reflexivity]).
  rewrite Hm. cbn [Z.div_eucl]. rewrite new_location_zero.
  cbn [Z.ltb Z.compare xorb]. rewrite round_zero. reflexivity.
Qed.

(** [n / n] is [1.0]. *)
Lemma int_truediv_same (n : Z) :
  0 < n -> int_truediv n n = Ok (S754_finite false 4503599627370496 (-52)).
Proof.
  intros Hn. unfold int_truediv.
  replace (n =? 0) with false by (symmetry; apply Z.eqb_neq; lia).
  replace (n <? 0) with false by (symmetry; apply Z.ltb_ge; lia).
  rewrite (Z.abs_eq n) by lia.
  unfold SFdiv_core_binary.
  replace (Zdigits2 n + 0 - (Zdigits2 n + 0)) with 0 by lia.
  change (Z.min (fexp prec emax 0) (0 - 0)) with (-53).
  change (0 - 0 - -53) with 53.
  cbv iota. rewrite Z.shiftl_mul_pow2 by lia.
  rewrite div_eucl_pair, Z.mul_comm, Z.div_mul, Z.mod_mul by lia.
  rewrite new_location_zero. reflexivity.
Qed.

(* ================================================================== *)
(** ** The marker scores and the simple cases of reciprocity *)

Lemma count_if_bounds (m : Turn -> bool) (ts : list Turn) :
  0 <= count_if m ts <= len ts.
Proof.
  unfold count_if, len. pose proof (filter_length_le m ts). lia.
Qed.

(** Each of the four marker scores is the percentage of marked human
    turns cut to an integer, for conversations of fewer than 2^44 human
    turns. *)
Lemma marker_score_floor (m : Turn -> bool) (humans : list Turn) :
  len humans < 17592186044416 ->
  marker_score m humans =
  Ok (floor_percent (count_if m humans) (Z.max (len humans) 1)).
Proof.
  intros Hlen. unfold marker_score, floor_percent.
  pose proof (count_if_bounds m humans) as Hc.
  assert (Hl : 0 <= len humans) by (unfold len; lia).
  set (c := count_if m humans) in *. set (b := Z.max (len humans) 1).
  assert (Hb : 0 < b < 2251799813685248) by (unfold b; lia).
  destruct (Z.eq_dec c 0) as [-> | Hne].
  - change (100 * 0) with 0. rewrite (int_truediv_zero b) by lia.
    cbn [bind int_of_float]. now rewrite Z.div_0_l by lia.
  - destruct (int_truediv_floor_pos (100 * c) b) as [x [E1 E2]]; [lia | lia |].
    rewrite E1. cbn [bind]. exact E2.
Qed.

(** The reciprocity of no turn at all is 0. *)
Lemma reciprocity_empty (h a : Z) : reciprocity 0 h a = Ok 0.
Proof. reflexivity. Qed.

(** Equal numbers of human and ai turns give 100. *)
Lemma reciprocity_balanced (total n : Z) :
  0 < total -> 0 < n -> reciprocity total n n = Ok 100.
Proof.
  intros Ht Hn. unfold reciprocity.
  replace (0 <? total) with true by (symmetry; apply Z.ltb_lt; lia).
  rewrite Z.min_id, Z.max_id, (Z.max_l n 1) by lia.
  rewrite (int_truediv_same n Hn). reflexivity.
Qed.

(** Turns of one side only give 0. *)
Lemma reciprocity_one_sided (total n : Z) :
  0 < total -> 0 < n ->
  reciprocity total n 0 = Ok 0 /\ reciprocity total 0 n = Ok 0.
Proof.
  intros Ht Hn. unfold reciprocity.
  replace (0 <? total) with true by (symmetry; apply Z.ltb_lt; lia).
  rewrite (Z.min_r n 0), (Z.min_l 0 n), (Z.max_l n 0), (Z.max_r 0 n) by lia.
  rewrite (Z.max_l n 1) by lia.
  rewrite (int_truediv_zero n Hn). split; reflexivity.
Qed.

(** What the aggregation returns, read off its definition: the four
    marker scores of a conversation of fewer than 2^44 human turns are
    the truncated percentages, and the reciprocity score is the value of
    [reciprocity] on the three counts. *)
Lemma aggregate_scores (ts : list Turn) (a : ConnectionAnalysis) :
  len (filter is_human ts) < 17592186044416 ->
  aggregate ts = Ok a ->
  let humans := filter is_human ts in
  curiosity_score a =
    floor_percent (count_if curiosity_shown humans) (Z.max (len humans) 1) /\
  acknowledgment_score a =
    floor_percent (count_if acknowledgment_given humans) (Z.max (len humans) 1) /\
  space_score a =
    floor_percent (count_if space_given humans) (Z.max (len humans) 1) /\
  continuity_score a =
    floor_percent (count_if continuity_referenced humans) (Z.max (len humans) 1) /\
  reciprocity (len ts) (len humans) (len (filter is_ai ts)) = Ok (reciprocity_score a) /\
  weighted_overall (curiosity_score a) (acknowledgment_score a) (space_score a)
    (continuity_score a) (reciprocity_score a) = Ok (overall_score a).
Proof.
  intros Hlen H humans. unfold aggregate in H. fold humans in H.
  rewrite !(marker_score_floor _ humans Hlen) in H. cbn [bind] in H.
  destruct (reciprocity (len ts) (len humans) (len (filter is_ai ts)))
    as [r | e] eqn:Er; [| discriminate].
  cbn [bind] in H.
  destruct (weighted_overall _ _ _ _ r) as [o | e] eqn:Eo; [| discriminate].
  cbn [bind] in H. injection H as <-.
  cbn [curiosity_score acknowledgment_score space_score continuity_score
       reciprocity_score overall_score].
  repeat split. exact Eo.
Qed.

End Rounding.

(* ================================================================== *)
(** ** The scores in double arithmetic *)

(** C4.  For 29 human and 50 ai turns the percentage 100 * 29 / 50 is
    58 exactly, and [analyze_conversation] returns reciprocity 57: the
    quotient 29/50 is rounded to a double first, and its product with 100
    is the double just below 58. *)
Theorem reciprocity_of_29_to_50 :
  exists a,
    parse_conversation lopsided_text = lopsided /\
    analyze_conversation lopsided = Ok a /\
    human_turns a = 29%Z /\ ai_turns a = 50%Z /\
    reciprocity_score a = 57%Z /\
    floor_percent (Z.min 29 50) (Z.max (Z.max 29 50) 1) = 58%Z /\
    (100 * Z.min 29 50 mod Z.max (Z.max 29 50) 1 = 0)%Z.
Proof.
  eexists. split; [vm_compute; reflexivity |].
  split; [vm_compute; reflexivity |].
  cbn [human_turns ai_turns reciprocity_score]. repeat split.
Qed.

(** C2.  For the seven-turn transcript the five sub-scores are 50, 16,
    16, 66 and 16, the marker scores being the percentages of 3, 1, 1 and
    4 turns in 6 cut to integers; their weighted sum is 32 exactly, and
    [analyze_conversation] returns the overall score 31: the sum of the
    five double products is the double just below 32. *)
Theorem overall_of_seven_turns :
  exists a,
    run seven_turns = Ok a /\
    curiosity_score a = 50%Z /\ acknowledgment_score a = 16%Z /\
    space_score a = 16%Z /\ continuity_score a = 66%Z /\
    reciprocity_score a = 16%Z /\
    floor_percent 3 6 = 50%Z /\ floor_percent 1 6 = 16%Z /\
    floor_percent 4 6 = 66%Z /\
    overall_score a = 31%Z /\
    weighted_hundredths 50 16 16 66 16 = 3200%Z /\
    exact_overall 50 16 16 66 16 = 32%Z.
Proof.
  eexists. split; [vm_compute; reflexivity |].
  cbn [curiosity_score acknowledgment_score space_score continuity_score
       reciprocity_score overall_score].
  repeat split.
Qed.

(* ================================================================== *)
(** ** What the annotation keeps *)

Lemma annotate_from_length (ts : list Turn) (p : option Turn) :
  List.length (annotate_from p ts) = List.length ts.
Proof.
  revert p. induction ts as [| t ts IH]; intros p; cbn [annotate_from List.length];
    [reflexivity | now rewrite IH].
Qed.

Lemma annotate_from_speakers (ts : list Turn) (p : option Turn) :
  map speaker (annotate_from p ts) = map speaker ts.
Proof.
  revert p. induction ts as [| t ts IH]; intros p; cbn [annotate_from map];
    [reflexivity | now rewrite analyze_turn_speaker, IH].
Qed.

Lemma annotate_from_texts (ts : list Turn) (p : option Turn) :
  map text (annotate_from p ts) = map text ts.
Proof.
  revert p. induction ts as [| t ts IH]; intros p; cbn [annotate_from map];
    [reflexivity | now rewrite analyze_turn_text, IH].
Qed.

(** X1.  The annotation loop returns as many turns as it was given, in
    the same order, with the speakers and the texts it was given: it
    writes to the six markers only. *)
Theorem annotate_keeps_turns (ts : list Turn) :
  List.length (annotate ts) = List.length ts /\
  map speaker (annotate ts) = map speaker ts /\
  map text (annotate ts) = map text ts.
Proof.
  unfold annotate. split; [apply annotate_from_length |].
  split; [apply annotate_from_speakers | apply annotate_from_texts].
Qed.

(** A second call of [analyze_turn] on the turn it has mutated, with a
    previous turn of the same kind, changes nothing. *)
Lemma analyze_turn_again (t : Turn) (p q : option Turn) :
  prev_is_ai q = prev_is_ai p ->
  analyze_turn (analyze_turn t p) q = analyze_turn t p.
Proof.
  intros H. destruct (is_human t) eqn:Hh.
  - assert (Hh' : is_human (analyze_turn t p) = true)
      by now rewrite analyze_turn_is_human.
    rewrite (analyze_turn_human _ q Hh'), H.
    rewrite (analyze_turn_human t p Hh). unfold ack_match. cbn.
    destruct (prev_is_ai p); reflexivity.
  - assert (Hh' : is_human (analyze_turn t p) = false)
      by now rewrite analyze_turn_is_human.
    rewrite (analyze_turn_other _ q Hh').
    rewrite (analyze_turn_other t p Hh). reflexivity.
Qed.

Lemma annotate_from_again (ts : list Turn) (p q : option Turn) :
  prev_is_ai q = prev_is_ai p ->
  annotate_from q (annotate_from p ts) = annotate_from p ts.
Proof.
  revert p q. induction ts as [| t ts IH]; intros p q H; cbn [annotate_from];
    [reflexivity |].
  rewrite (analyze_turn_again t p q H). f_equal. now apply IH.
Qed.

(** X2.  Annotating annotated turns changes nothing, whatever markers
    the turns came in with; so a second [analyze_conversation] on the
    list the first one has mutated returns what the first one returned. *)
Theorem analysis_is_repeatable (ts : list Turn) :
  annotate (annotate ts) = annotate ts /\
  analyze_conversation (annotate ts) = analyze_conversation ts.
Proof.
  assert (E : annotate (annotate ts) = annotate ts)
    by (unfold annotate; now apply annotate_from_again).
  split; [exact E |]. unfold analyze_conversation. now rewrite E.
Qed.

(* ================================================================== *)
(** ** The speakers the parser assigns *)

Lemma label_speaker_cases (l : string) :
  label_speaker l = "human" \/ label_speaker l = "ai".
Proof.
  unfold label_speaker. destruct (re_match_ic human_label l); auto.
Qed.

Lemma parse_conversation_speakers (txt : string) :
  Forall human_or_ai (parse_conversation txt).
Proof.
  pose proof (parse_conversation_labels txt) as H.
  induction H as [| t l ts ls [Hs _] _ IH]; constructor; [| exact IH].
  unfold human_or_ai. rewrite Hs. apply label_speaker_cases.
Qed.

(** Humans and ais partition a list of human and ai turns. *)
Lemma human_ai_partition (ts : list Turn) :
  Forall human_or_ai ts ->
  len ts = (len (filter is_human ts) + len (filter is_ai ts))%Z.
Proof.
  unfold len. intros H. induction H as [| t ts Ht _ IH]; [reflexivity |].
  cbn [filter]. unfold is_human at 1, is_ai at 1.
  destruct Ht as [-> | ->]; cbn [String.eqb Ascii.eqb Bool.eqb];
    cbn [List.length]; lia.
Qed.

Lemma annotate_human_or_ai (ts : list Turn) :
  Forall human_or_ai ts -> Forall human_or_ai (annotate ts).
Proof.
  unfold annotate. generalize (@None Turn). induction ts as [| t ts IH];
    intros p H; cbn [annotate_from]; [constructor |].
  inversion H as [| ? ? Ht Hts]; subst. constructor; [| now apply IH].
  unfold human_or_ai. now rewrite analyze_turn_speaker.
Qed.

(** X3.  Every turn [parse_conversation] returns has the speaker
    ["human"] or ["ai"], so the analyzed turns split into human turns and
    ai turns with none left over. *)
Theorem parsed_turns_are_human_or_ai (txt : string) :
  Forall human_or_ai (parse_conversation txt) /\
  len (annotate (parse_conversation txt)) =
    (len (filter is_human (annotate (parse_conversation txt))) +
     len (filter is_ai (annotate (parse_conversation txt))))%Z.
Proof.
  pose proof (parse_conversation_speakers txt) as H.
  split; [exact H |]. now apply human_ai_partition, annotate_human_or_ai.
Qed.

(* ================================================================== *)
(** ** What the report shows *)

Lemma startswith_app (p y : string) : PyStr.startswith p (p ++ y) = true.
Proof.
  induction p as [| c p IH]; [reflexivity |].
  cbn. now rewrite Ascii.eqb_refl, IH.
Qed.

Lemma startswith_app_l (p x y : string) :
  PyStr.startswith p x = true -> PyStr.startswith p (x ++ y) = true.
Proof.
  revert x. induction p as [| c p IH]; intros x H; [reflexivity |].
  destruct x as [| d x]; [discriminate |]. cbn in *.
  apply andb_true_iff in H. destruct H as [H1 H2].
  now rewrite H1, (IH x H2).
Qed.

Lemma contains_app_l (p x y : string) :
  PyStr.contains p x = true -> PyStr.contains p (x ++ y) = true.
Proof.
  induction x as [| c x IH]; intros H.
  - cbn in H. rewrite orb_false_r in H.
    destruct p as [| d p]; [| discriminate].
    destruct y; reflexivity.
  - cbn [PyStr.contains append] in *. apply orb_true_iff in H.
    apply orb_true_iff. destruct H as [H | H].
    + left. exact (startswith_app_l p (String c x) y H).
    + right. now apply IH.
Qed.

Lemma contains_app_r (p x y : string) :
  PyStr.contains p y = true -> PyStr.contains p (x ++ y) = true.
Proof.
  intros H. induction x as [| c x IH]; [exact H |].
  cbn [PyStr.contains append]. rewrite IH. apply orb_true_r.
Qed.

Lemma contains_here (p y : string) : PyStr.contains p (p ++ y) = true.
Proof.
  destruct (p ++ y) eqn:E; cbn [PyStr.contains]; rewrite <- E;
    now rewrite startswith_app.
Qed.

Lemma append_assoc_str (x y z : string) : (x ++ y) ++ z = x ++ (y ++ z).
Proof. induction x as [| c x IH]; cbn; [reflexivity | now rewrite IH]. Qed.

Lemma bullets_cons (y : string) (items : list string) :
  bullets (y :: items) = bullet_line y ++ bullets items.
Proof.
  unfold bullet_line. cbn [bullets]. now rewrite !append_assoc_str.
Qed.

Lemma bullets_contains (items : list string) (x : string) :
  In x items -> PyStr.contains (bullet_line x) (bullets items) = true.
Proof.
  induction items as [| y items IH]; intros H; [contradiction |].
  rewrite bullets_cons.
  destruct H as [-> | H].
  - apply contains_here.
  - apply contains_app_r. now apply IH.
Qed.

Lemma report_section_contains (title : string) (items : list string) (x : string) :
  In x items ->
  PyStr.contains (bullet_line x) (report_section title items) = true.
Proof.
  intros H. destruct items as [| y items]; [contradiction |].
  unfold report_section.
  apply contains_app_r, contains_app_r, contains_app_r.
  now apply bullets_contains.
Qed.

(** X4.  The report holds a bullet line for every highlight, every AI
    experience moment and every missed opportunity of the analysis it
    is given. *)
Theorem report_lists_every_item (a : ConnectionAnalysis) (x : string) :
  In x (highlights a) \/ In x (ai_experience_moments a) \/
  In x (missed_opportunities a) ->
  PyStr.contains (bullet_line x) (format_report a) = true.
Proof.
  intros H. unfold format_report.
  apply contains_app_r.
  destruct H as [H | [H | H]].
  - apply contains_app_l. now apply report_section_contains.
  - apply contains_app_r, contains_app_l. now apply report_section_contains.
  - apply contains_app_r, contains_app_r, contains_app_l.
    now apply report_section_contains.
Qed.

Lemma report_lists_every_item_witness :
  In "Turn 1: AI expressed genuine emotion"
     (ai_experience_moments
        (mkConnectionAnalysis 0 0 0 0 0 0 [] []
           ["Turn 1: AI expressed genuine emotion"] 1 0 1)) /\
  PyStr.contains (bullet_line "Turn 1: AI expressed genuine emotion")
    (format_report
       (mkConnectionAnalysis 0 0 0 0 0 0 [] []
          ["Turn 1: AI expressed genuine emotion"] 1 0 1)) = true.
Proof.
  split; [now left |].
  apply (report_lists_every_item
           (mkConnectionAnalysis 0 0 0 0 0 0 [] []
              ["Turn 1: AI expressed genuine emotion"] 1 0 1)).
  right. left. now left.
Defined.

(* ================================================================== *)
(** ** The three lists of the analysis *)




(** The lists and counts of a returned analysis, read off [aggregate]. *)
Lemma aggregate_lists (ts : list Turn) (a : ConnectionAnalysis) :
  aggregate ts = Ok a ->
  highlights a = firstn 5 (highlights_from 0 ts) /\
  missed_opportunities a = firstn 3 (missed_from 0 ts) /\
  ai_experience_moments a = firstn 5 (ai_moments_from 0 ts) /\
  turn_count a = len ts /\
  human_turns a = len (filter is_human ts) /\
  ai_turns a = len (filter is_ai ts).
Proof.
  unfold aggregate. intros H.
  repeat match type of H with
         | bind ?m _ = Ok _ => destruct m; cbn [bind] in H; [| discriminate]
         end.
  injection H as <-. cbn. repeat split.
Qed.

(* ================================================================== *)
(** ** Doubles as scaled integers *)

Section ScaledDoubles.
Local Open Scope Z_scope.

(** *** Shifting right by any number of digits *)

Lemma shr_1_m (mrs : shr_record) :
  0 <= shr_m mrs -> shr_m (shr_1 mrs) = shr_m mrs / 2.
Proof.
  destruct mrs as [m r s]. cbn [shr_m]. intros Hm.
  destruct m as [| p | p]; try lia; [reflexivity |].
  assert (H : shr_m (shr_1 (Build_shr_record (Zpos p) r s)) = Z.div2 (Zpos p))
    by (destruct p; reflexivity).
  rewrite H. apply Z.div2_div.
Qed.

Lemma iter_pos_shr_1_m (p : positive) (mrs : shr_record) :
  0 <= shr_m mrs ->
  0 <= shr_m (iter_pos shr_1 p mrs) /\
  shr_m (iter_pos shr_1 p mrs) = shr_m mrs / 2 ^ Zpos p.
Proof.
  revert mrs. induction p as [p IH | p IH |]; intros mrs Hm; cbn [iter_pos].
  - assert (H1 : 0 <= shr_m (shr_1 mrs))
      by (rewrite shr_1_m by lia; apply Z.div_pos; lia).
    destruct (IH (shr_1 mrs) H1) as [H2 E2].
    destruct (IH _ H2) as [H3 E3].
    split; [exact H3 |].
    rewrite E3, E2, shr_1_m by lia.
    assert (HP : 0 < 2 ^ Zpos p) by (apply Z.pow_pos_nonneg; lia).
    rewrite !Z.div_div by lia. f_equal.
    rewrite (Pos2Z.inj_xI p), Z.pow_add_r, Z.pow_mul_r by lia.
    change (2 ^ 2) with 4. change (2 ^ 1) with 2.
    replace (4 ^ Zpos p) with (2 ^ Zpos p * 2 ^ Zpos p).
    + ring.
    + rewrite <- Z.pow_mul_l. reflexivity.
  - destruct (IH mrs Hm) as [H2 E2].
    destruct (IH _ H2) as [H3 E3].
    split; [exact H3 |].
    rewrite E3, E2.
    assert (HP : 0 < 2 ^ Zpos p) by (apply Z.pow_pos_nonneg; lia).
    rewrite !Z.div_div by lia. f_equal.
    rewrite (Pos2Z.inj_xO p), Z.pow_mul_r by lia.
    change (2 ^ 2) with 4.
    rewrite <- Z.pow_mul_l. reflexivity.
  - rewrite shr_1_m by lia. split; [apply Z.div_pos; lia | reflexivity].
Qed.

(** The first normalisation of [binary_round_aux], on a mantissa of at
    least 53 digits in the normal range: the mantissa is cut to its 53
    leading digits. *)
Lemma shr_fexp_cut (m e : Z) (l : location) :
  0 < m -> 53 <= Zdigits2 m -> -1074 <= e + (Zdigits2 m - 53) ->
  exists mrs,
    shr_fexp prec emax m e l = (mrs, e + (Zdigits2 m - 53)) /\
    shr_m mrs = m / 2 ^ (Zdigits2 m - 53).
Proof.
  intros Hm Hd He. unfold shr_fexp, fexp, emin, prec, emax.
  replace (Z.max (Zdigits2 m + e - 53) (3 - 1024 - 53) - e)
    with (Zdigits2 m - 53) by lia.
  unfold shr. destruct (Zdigits2 m - 53) as [| p | p] eqn:E; try lia.
  - exists (shr_record_of_loc m l). split; [f_equal; lia |].
    rewrite shr_m_of_loc. change (2 ^ 0) with 1. now rewrite Z.div_1_r.
  - exists (iter_pos shr_1 p (shr_record_of_loc m l)). split; [reflexivity |].
    destruct (iter_pos_shr_1_m p (shr_record_of_loc m l)) as [_ H];
      rewrite shr_m_of_loc in *; [lia | exact H].
Qed.

(** A mantissa of [d] digits cut to 53 digits has 53 digits. *)
Lemma cut_53_digits (m : Z) :
  0 < m -> 53 <= Zdigits2 m ->
  4503599627370496 <= m / 2 ^ (Zdigits2 m - 53) < 9007199254740992.
Proof.
  intros Hm Hd.
  destruct (Zdigits2_bounds m Hm) as [[Hlo Hhi] _].
  set (sh := Zdigits2 m - 53) in *.
  assert (HP : 0 < 2 ^ sh) by (apply Z.pow_pos_nonneg; lia).
  assert (E1 : 2 ^ (Zdigits2 m - 1) = 4503599627370496 * 2 ^ sh).
  { change 4503599627370496 with (2 ^ 52). rewrite <- Z.pow_add_r by lia.
    f_equal. unfold sh. lia. }
  assert (E2 : 2 ^ Zdigits2 m = 9007199254740992 * 2 ^ sh).
  { change 9007199254740992 with (2 ^ 53). rewrite <- Z.pow_add_r by lia.
    f_equal. unfold sh. lia. }
  split.
  - apply Z.div_le_lower_bound; lia.
  - apply Z.div_lt_upper_bound; lia.
Qed.

(** The second normalisation, with the value it keeps. *)
Lemma round_finish_value (m1 e1 : Z) :
  4503599627370496 <= m1 <= 9007199254740992 ->
  -1074 <= e1 <= 969 ->
  exists p e2,
    shr_fexp prec emax m1 e1 loc_Exact = (Build_shr_record (Zpos p) false false, e2) /\
    e1 <= e2 <= e1 + 1 /\
    Zpos p * 2 ^ (e2 - e1) = m1 /\
    4503599627370496 <= Zpos p < 9007199254740992.
Proof.
  intros Hm He.
  destruct (Z.eq_dec m1 9007199254740992) as [-> | Hne].
  - rewrite shr_fexp_once; [| reflexivity | lia].
    exists 4503599627370496%positive, (e1 + 1). split; [reflexivity |].
    split; [lia |]. replace (e1 + 1 - e1) with 1 by lia. split; [reflexivity | lia].
  - assert (Hd : Zdigits2 m1 = 53).
    { apply Zdigits2_unique; [| lia].
      change (2 ^ (53 - 1)) with 4503599627370496.
      change (2 ^ 53) with 9007199254740992. lia. }
    rewrite shr_fexp_keep; [| exact Hd | lia].
    destruct m1 as [| p | p]; try lia.
    exists p, e1. split; [reflexivity |]. split; [lia |].
    rewrite Z.sub_diag. change (2 ^ 0) with 1. split; lia.
Qed.

(** [binary_round_aux] on a mantissa [mx] of at least 53 digits, in the
    normal range: the result is a double of 53 digits whose value, in
    units of the exponent [ex], lies between [mx] cut to 53 digits and
    the next such number. *)
Lemma round_general (mx ex : Z) (l : location) :
  0 < mx -> 53 <= Zdigits2 mx ->
  -1074 <= ex + (Zdigits2 mx - 53) <= 969 ->
  let sh := Zdigits2 mx - 53 in
  exists p e2,
    binary_round_aux prec emax false mx ex l = S754_finite false p e2 /\
    4503599627370496 <= Zpos p < 9007199254740992 /\
    ex + sh <= e2 <= ex + sh + 1 /\
    (Zpos p * 2 ^ (e2 - ex) = mx / 2 ^ sh * 2 ^ sh \/
     Zpos p * 2 ^ (e2 - ex) = (mx / 2 ^ sh + 1) * 2 ^ sh).
Proof.
  intros Hm Hd He sh.
  unfold binary_round_aux.
  destruct (shr_fexp_cut mx ex l Hm Hd ltac:(lia)) as [mrs [E1 Hq]].
  fold sh in E1, Hq. rewrite E1.
  pose proof (cut_53_digits mx Hm Hd) as Hc. fold sh in Hc.
  set (q := mx / 2 ^ sh) in *.
  rewrite Hq.
  set (m1 := round_nearest_even q (loc_of_shr_record mrs)).
  assert (Hm1 : m1 = q \/ m1 = q + 1) by apply round_nearest_even_cases.
  destruct (round_finish_value m1 (ex + sh)) as [p [e2 [E2 [He2 [Hv Hp]]]]];
    [lia | lia |].
  rewrite E2. cbn [shr_m]. unfold prec, emax.
  replace (e2 <=? 1024 - 53) with true by (symmetry; apply Z.leb_le; lia).
  exists p, e2. split; [reflexivity |]. split; [exact Hp |]. split; [exact He2 |].
  assert (Hs : 2 ^ (e2 - ex) = 2 ^ (e2 - (ex + sh)) * 2 ^ sh).
  { rewrite <- Z.pow_add_r by (unfold sh; lia). f_equal. lia. }
  rewrite Hs, Z.mul_assoc, Hv. destruct Hm1 as [-> | ->]; [left | right]; reflexivity.
Qed.

Lemma pos_iter_xO (q k : positive) :
  Zpos (Pos.iter xO q k) = Zpos q * 2 ^ Zpos k.
Proof.
  induction k as [| k IH] using Pos.peano_ind.
  - cbn [Pos.iter]. rewrite Pos2Z.inj_xO. change (2 ^ 1) with 2. lia.
  - rewrite Pos.iter_succ, Pos2Z.inj_xO, IH, Pos2Z.inj_succ, Z.pow_succ_r by lia.
    ring.
Qed.

(** [shl_align] to a smaller exponent keeps the value. *)
Lemma shl_align_value (m : positive) (e e' : Z) :
  e' <= e ->
  Zpos (fst (shl_align m e e')) = Zpos m * 2 ^ (e - e') /\
  (e' < e -> snd (shl_align m e e') = e').
Proof.
  intros H. unfold shl_align.
  destruct (e' - e) as [| k | k] eqn:E; try lia; cbn [fst snd].
  - replace (e - e') with 0 by lia. change (2 ^ 0) with 1. split; lia.
  - rewrite pos_iter_xO. replace (e - e') with (Zpos k) by lia. split; auto.
Qed.

(** [shl_align] to a larger or equal exponent does nothing. *)
Lemma shl_align_keep (m : positive) (e e' : Z) :
  e <= e' -> shl_align m e e' = (m, e).
Proof.
  intros H. unfold shl_align. destruct (e' - e) eqn:E; try lia; reflexivity.
Qed.

(** A mantissa of exactly 53 digits is not rounded. *)
Lemma round_exact (m : positive) (e : Z) :
  4503599627370496 <= Zpos m < 9007199254740992 -> -1074 <= e <= 971 ->
  binary_round_aux prec emax false (Zpos m) e loc_Exact = S754_finite false m e.
Proof.
  intros Hm He.
  assert (Hd : Zdigits2 (Zpos m) = 53).
  { apply Zdigits2_unique; [| lia].
    change (2 ^ (53 - 1)) with 4503599627370496.
    change (2 ^ 53) with 9007199254740992. lia. }
  unfold binary_round_aux.
  rewrite shr_fexp_keep by (try exact Hd; lia).
  cbn [shr_record_of_loc shr_m loc_of_shr_record round_nearest_even].
  rewrite shr_fexp_keep by (try exact Hd; lia).
  cbn [shr_record_of_loc shr_m]. unfold prec, emax.
  replace (e <=? 1024 - 53) with true by (symmetry; apply Z.leb_le; lia).
  reflexivity.
Qed.

(** [float(n)] for a positive integer below 2^53 is exact. *)
Lemma float_of_int_exact (n : Z) :
  0 < n < 9007199254740992 ->
  exists f, float_of_int n = Ok f /\ good (-52) 0 f /\ units f = n * 2 ^ 200.
Proof.
  intros Hn. destruct n as [| q | q]; try lia.
  destruct (Zdigits2_bounds (Zpos q) ltac:(lia)) as [[Hlo Hhi] Hd].
  assert (Hd53 : Zdigits2 (Zpos q) <= 53).
  { destruct (Z_le_gt_dec (Zdigits2 (Zpos q)) 53) as [H | H]; [exact H | exfalso].
    assert (2 ^ 53 <= 2 ^ (Zdigits2 (Zpos q) - 1)) by (apply Z.pow_le_mono_r; lia).
    change (2 ^ 53) with 9007199254740992 in *. lia. }
  cbn [Zdigits2] in *. set (d := Zpos (digits2_pos q)) in *.
  unfold float_of_int, binary_normalize, binary_round, fexp, emin, prec, emax.
  fold d. replace (Z.max (d + 0 - 53) (3 - 1024 - 53)) with (d - 53) by lia.
  destruct (shl_align_value q 0 (d - 53) ltac:(lia)) as [Hv He].
  destruct (shl_align q 0 (d - 53)) as [mz ez] eqn:Es. cbn [fst snd] in *.
  assert (Hez : ez = d - 53).
  { destruct (Z.eq_dec d 53) as [E | E].
    - rewrite E in Es. rewrite shl_align_keep in Es by lia.
      injection Es as _ <-. lia.
    - apply He. lia. }
  subst ez. replace (0 - (d - 53)) with (53 - d) in Hv by lia.
  assert (Hmz : 4503599627370496 <= Zpos mz < 9007199254740992).
  { rewrite Hv. split.
    - change 4503599627370496 with (2 ^ 52).
      replace 52 with ((d - 1) + (53 - d)) by lia.
      rewrite Z.pow_add_r by lia. apply Z.mul_le_mono_nonneg_r; [| lia].
      apply Z.pow_nonneg; lia.
    - change 9007199254740992 with (2 ^ 53).
      replace 53 with (d + (53 - d)) at 2 by lia.
      rewrite Z.pow_add_r by lia. apply Z.mul_lt_mono_pos_r; [| lia].
      apply Z.pow_pos_nonneg; lia. }
  rewrite round_exact by (try exact Hmz; lia).
  eexists. split; [reflexivity |]. split.
  - cbn [good]. split; [exact Hmz | lia].
  - cbn [units]. rewrite Hv, <- Z.mul_assoc, <- Z.pow_add_r by lia.
    do 2 f_equal. lia.
Qed.

(** [int(f)] is the integer part of the value. *)
Lemma int_of_float_units (lo hi : Z) (f : float) :
  good lo hi f -> -200 <= lo ->
  int_of_float f = Ok (units f / 2 ^ 200).
Proof.
  intros H Hlo. destruct f as [[] | | | [] m e]; try contradiction.
  - reflexivity.
  - destruct H as [_ He]. cbn [int_of_float units].
    destruct e as [| pe | pe].
    + change (0 + 200) with 200. rewrite Z.div_mul by lia. f_equal. cbn. lia.
    + rewrite Z.pow_add_r, Z.mul_assoc, Z.div_mul by lia. reflexivity.
    + f_equal.
      replace (2 ^ 200) with (2 ^ Zpos pe * 2 ^ (Zneg pe + 200)).
      * rewrite Z.div_mul_cancel_r; try (apply Z.pow_nonzero; lia). reflexivity.
      * rewrite <- Z.pow_add_r by lia. f_equal. lia.
Qed.

(** The rounding error of [binary_round_aux] on an exact mantissa of at
    least 53 digits is at most 2^-52 of the value. *)
Lemma round_general_error (mx ex : Z) (l : location) :
  0 < mx -> 53 <= Zdigits2 mx ->
  -1074 <= ex + (Zdigits2 mx - 53) <= 969 ->
  exists p e2,
    binary_round_aux prec emax false mx ex l = S754_finite false p e2 /\
    4503599627370496 <= Zpos p < 9007199254740992 /\
    ex + (Zdigits2 mx - 53) <= e2 <= ex + (Zdigits2 mx - 53) + 1 /\
    4503599627370496 * Z.abs (Zpos p * 2 ^ (e2 - ex) - mx) <= mx.
Proof.
  intros Hm Hd He.
  destruct (round_general mx ex l Hm Hd He) as [p [e2 [E [Hp [He2 Hv]]]]].
  exists p, e2. split; [exact E |]. split; [exact Hp |]. split; [exact He2 |].
  pose proof (cut_53_digits mx Hm Hd) as Hc.
  set (sh := Zdigits2 mx - 53) in *.
  assert (HP : 0 < 2 ^ sh) by (apply Z.pow_pos_nonneg; lia).
  pose proof (Z.mul_div_le mx (2 ^ sh) HP) as H1.
  pose proof (Z.mul_succ_div_gt mx (2 ^ sh) HP) as H2.
  set (q := mx / 2 ^ sh) in *.
  assert (H3 : 4503599627370496 * 2 ^ sh <= q * 2 ^ sh)
    by (apply Z.mul_le_mono_nonneg_r; lia).
  destruct Hv as [-> | ->]; lia.
Qed.

Lemma digits_at_least (m d : Z) : 0 < m -> 2 ^ (d - 1) <= m -> d <= Zdigits2 m.
Proof.
  intros Hm H. destruct (Zdigits2_bounds m Hm) as [[_ Hhi] Hd].
  destruct (Z_le_gt_dec d (Zdigits2 m)) as [L | G]; [exact L | exfalso].
  assert (2 ^ Zdigits2 m <= 2 ^ (d - 1)) by (apply Z.pow_le_mono_r; lia). lia.
Qed.

Lemma digits_at_most (m d : Z) : 0 < m -> 0 <= d -> m < 2 ^ d -> Zdigits2 m <= d.
Proof.
  intros Hm Hd H. destruct (Zdigits2_bounds m Hm) as [[Hlo _] Hd'].
  destruct (Z_le_gt_dec (Zdigits2 m) d) as [L | G]; [exact L | exfalso].
  assert (2 ^ d <= 2 ^ (Zdigits2 m - 1)) by (apply Z.pow_le_mono_r; lia). lia.
Qed.

(** The product of two doubles: a double again, within 2^-52 of the
    exact product. *)
Lemma fmul_units (lo1 hi1 lo2 hi2 : Z) (x y : float) :
  good lo1 hi1 x -> good lo2 hi2 y ->
  -200 <= lo1 -> -200 <= lo2 -> -252 <= lo1 + lo2 -> hi1 + hi2 <= 900 ->
  good (lo1 + lo2 + 52) (hi1 + hi2 + 54) (fmul x y) /\
  4503599627370496 * Z.abs (units (fmul x y) * 2 ^ 200 - units x * units y)
    <= units x * units y.
Proof.
  intros Hx Hy L1 L2 L12 H12.
  destruct x as [[] | [] | | [] mx ex]; cbn [good] in Hx; try contradiction;
    destruct y as [[] | [] | | [] my ey]; cbn [good] in Hy; try contradiction;
    try (split; [exact I
                | unfold fmul; cbn [SFmul xorb units];
                  rewrite ?Z.mul_0_r, ?Z.mul_0_l; cbn; lia]).
  destruct Hx as [Hmx Hex]. destruct Hy as [Hmy Hey].
  unfold fmul, SFmul. cbn [xorb].
  set (P := Zpos (mx * my)).
  assert (HP : P = Zpos mx * Zpos my) by reflexivity.
  assert (Hlo : 2 ^ 104 <= P).
  { rewrite HP. change (2 ^ 104) with (4503599627370496 * 4503599627370496).
    apply Z.mul_le_mono_nonneg; lia. }
  assert (Hhi : P < 2 ^ 106).
  { rewrite HP. change (2 ^ 106) with (9007199254740992 * 9007199254740992).
    apply Z.mul_lt_mono_nonneg; lia. }
  assert (Hd1 : 105 <= Zdigits2 P) by (apply digits_at_least; [lia | exact Hlo]).
  assert (Hd2 : Zdigits2 P <= 106) by (apply digits_at_most; lia).
  destruct (round_general_error P (ex + ey) loc_Exact) as [p [e2 [E [Hp [He2 Herr]]]]];
    [lia | lia | lia |].
  rewrite E. split.
  - cbn [good]. split; [exact Hp | lia].
  - cbn [units].
    set (W := 2 ^ (ex + ey + 400)).
    assert (HW : 0 < W) by (apply Z.pow_pos_nonneg; lia).
    assert (E1 : Zpos p * 2 ^ (e2 + 200) * 2 ^ 200 = Zpos p * 2 ^ (e2 - (ex + ey)) * W).
    { unfold W. rewrite <- !Z.mul_assoc, <- !Z.pow_add_r by lia. do 2 f_equal. lia. }
    assert (E2 : Zpos mx * 2 ^ (ex + 200) * (Zpos my * 2 ^ (ey + 200)) = P * W).
    { unfold W. rewrite HP.
      replace (ex + ey + 400) with ((ex + 200) + (ey + 200)) by lia.
      rewrite (Z.pow_add_r 2 (ex + 200) (ey + 200)) by lia. ring. }
    rewrite E1, E2, <- Z.mul_sub_distr_r, Z.abs_mul, (Z.abs_eq W) by lia.
    rewrite Z.mul_assoc. apply Z.mul_le_mono_nonneg_r; [lia | exact Herr].
Qed.

(** The sum of two doubles: a double again, within 2^-52 of the exact
    sum. *)
Lemma fadd_units (lo hi : Z) (x y : float) :
  good lo hi x -> good lo hi y -> -200 <= lo -> hi <= 900 ->
  good lo (hi + 2) (fadd x y) /\
  4503599627370496 * Z.abs (units (fadd x y) - (units x + units y))
    <= units x + units y.
Proof.
  intros Hx Hy L H.
  destruct x as [[] | [] | | [] mx ex]; cbn [good] in Hx; try contradiction;
    destruct y as [[] | [] | | [] my ey]; cbn [good] in Hy; try contradiction.
  - split; [exact I | cbn; lia].
  - unfold fadd. cbn [SFadd]. split; [cbn [good]; lia |].
    cbn [units]. assert (0 < 2 ^ (ey + 200)) by (apply Z.pow_pos_nonneg; lia).
    replace (Z.pos my * 2 ^ (ey + 200) - (0 + Z.pos my * 2 ^ (ey + 200))) with 0 by ring.
    cbn [Z.abs]. nia.
  - unfold fadd. cbn [SFadd]. split; [cbn [good]; lia |].
    cbn [units]. assert (0 < 2 ^ (ex + 200)) by (apply Z.pow_pos_nonneg; lia).
    replace (Z.pos mx * 2 ^ (ex + 200) - (Z.pos mx * 2 ^ (ex + 200) + 0)) with 0 by ring.
    cbn [Z.abs]. nia.
  - destruct Hx as [Hmx Hex]. destruct Hy as [Hmy Hey].
    unfold fadd. cbn [SFadd cond_Zopp].
    set (ez := Z.min ex ey).
    destruct (shl_align_value mx ex ez ltac:(lia)) as [HA _].
    destruct (shl_align_value my ey ez ltac:(lia)) as [HB _].
    set (pa := fst (shl_align mx ex ez)) in *.
    set (pb := fst (shl_align my ey ez)) in *.
    cbn [Z.add]. set (M := (pa + pb)%positive).
    assert (HM : Zpos M = Zpos mx * 2 ^ (ex - ez) + Zpos my * 2 ^ (ey - ez)).
    { unfold M. rewrite Pos2Z.inj_add, HA, HB. reflexivity. }
    set (D := Z.max ex ey - ez).
    assert (Hpx : 1 <= 2 ^ (ex - ez) <= 2 ^ D).
    { split; [assert (0 < 2 ^ (ex - ez)) by (apply Z.pow_pos_nonneg; lia); lia |].
      apply Z.pow_le_mono_r; unfold D; lia. }
    assert (Hpy : 1 <= 2 ^ (ey - ez) <= 2 ^ D).
    { split; [assert (0 < 2 ^ (ey - ez)) by (apply Z.pow_pos_nonneg; lia); lia |].
      apply Z.pow_le_mono_r; unfold D; lia. }
    assert (HMlo : 2 ^ (53 - 1) <= Zpos M).
    { change (2 ^ (53 - 1)) with 4503599627370496. rewrite HM. nia. }
    assert (HMhi : Zpos M < 2 ^ (54 + D)).
    { rewrite Z.pow_add_r by (unfold D; lia).
      change (2 ^ 54) with (9007199254740992 + 9007199254740992).
      rewrite HM. nia. }
    assert (Hd1 : 53 <= Zdigits2 (Zpos M)) by (apply digits_at_least; [lia | exact HMlo]).
    assert (Hd2 : Zdigits2 (Zpos M) <= 54 + D)
      by (apply digits_at_most; [lia | unfold D; lia | exact HMhi]).
    unfold binary_normalize, binary_round, fexp, emin, prec, emax.
    change (Zpos (digits2_pos M)) with (Zdigits2 (Zpos M)).
    rewrite shl_align_keep by lia.
    destruct (round_general_error (Zpos M) ez loc_Exact) as [p [e2 [E [Hp [He2 Herr]]]]];
      [lia | lia | unfold D in *; lia |].
    unfold prec, emax in E. rewrite E. split.
    + cbn [good]. split; [exact Hp | unfold D in *; lia].
    + cbn [units].
      set (W := 2 ^ (ez + 200)).
      assert (HW : 0 < W) by (apply Z.pow_pos_nonneg; lia).
      assert (E1 : Zpos p * 2 ^ (e2 + 200) = Zpos p * 2 ^ (e2 - ez) * W).
      { unfold W. rewrite <- Z.mul_assoc, <- Z.pow_add_r by lia. do 2 f_equal. lia. }
      assert (E2 : Zpos mx * 2 ^ (ex + 200) + Zpos my * 2 ^ (ey + 200) = Zpos M * W).
      { unfold W. rewrite HM, Z.mul_add_distr_r, <- !Z.mul_assoc.
        rewrite <- (Z.pow_add_r 2 (ex - ez)), <- (Z.pow_add_r 2 (ey - ez)) by lia.
        do 2 f_equal; f_equal; lia. }
      rewrite E1, E2, <- Z.mul_sub_distr_r, Z.abs_mul, (Z.abs_eq W) by lia.
      rewrite Z.mul_assoc. apply Z.mul_le_mono_nonneg_r; [lia | exact Herr].
Qed.

Lemma float_of_int_units (n : Z) :
  0 <= n < 9007199254740992 ->
  exists f, float_of_int n = Ok f /\ good (-52) 0 f /\ units f = n * 2 ^ 200.
Proof.
  intros Hn. destruct (Z.eq_dec n 0) as [-> | Hne].
  - exists (S754_zero false). repeat split.
  - apply float_of_int_exact. lia.
Qed.

(** The quotient of two positive [int]s: a double within 2^-52 of the
    exact quotient. *)
Lemma int_truediv_units (a b : Z) :
  0 < a < 2251799813685248 -> 0 < b < 2251799813685248 ->
  exists f, int_truediv a b = Ok f /\ good (-104) (-1) f /\
    4503599627370496 * Z.abs (b * units f - a * 2 ^ 200) <= a * 2 ^ 200.
Proof.
  intros Ha Hb.
  destruct (div_core_shifted a b Ha Hb) as [Hda' [Hs Hcore]].
  set (s := 53 + Zdigits2 b - Zdigits2 a) in *.
  destruct (Zdigits2_bounds a (proj1 Ha)) as [[Ha1 Ha2] Hda].
  destruct (Zdigits2_bounds b (proj1 Hb)) as [[Hb1 Hb2] Hdb].
  assert (HP : 0 < 2 ^ s) by (apply Z.pow_pos_nonneg; lia).
  assert (Hlow : 4503599627370496 * 2 ^ Zdigits2 b <= a * 2 ^ s).
  { replace (4503599627370496 * 2 ^ Zdigits2 b) with (2 ^ (Zdigits2 a - 1) * 2 ^ s).
    - apply Z.mul_le_mono_nonneg_r; lia.
    - rewrite <- Z.pow_add_r by lia. change 4503599627370496 with (2 ^ 52).
      rewrite <- Z.pow_add_r by lia. f_equal. unfold s. lia. }
  assert (Hupp : a * 2 ^ s < 18014398509481984 * 2 ^ (Zdigits2 b - 1)).
  { replace (18014398509481984 * 2 ^ (Zdigits2 b - 1)) with (2 ^ Zdigits2 a * 2 ^ s).
    - apply Z.mul_lt_mono_pos_r; lia.
    - rewrite <- Z.pow_add_r by lia. change 18014398509481984 with (2 ^ 54).
      rewrite <- Z.pow_add_r by lia. f_equal. unfold s. lia. }
  pose proof (Z.mul_div_le (a * 2 ^ s) b (proj1 Hb)) as Hq1.
  pose proof (Z.mul_succ_div_gt (a * 2 ^ s) b (proj1 Hb)) as Hq2.
  assert (Hq : 4503599627370496 <= a * 2 ^ s / b < 18014398509481984).
  { split.
    - apply Z.div_le_lower_bound; [lia |].
      assert (b * 4503599627370496 <= 4503599627370496 * 2 ^ Zdigits2 b) by lia. lia.
    - apply Z.div_lt_upper_bound; [lia |].
      assert (18014398509481984 * 2 ^ (Zdigits2 b - 1) <= b * 18014398509481984) by lia.
      lia. }
  set (q := a * 2 ^ s / b) in *.
  assert (Hd1 : 53 <= Zdigits2 q)
    by (apply digits_at_least; [lia | change (2 ^ (53 - 1)) with 4503599627370496; lia]).
  assert (Hd2 : Zdigits2 q <= 54)
    by (apply digits_at_most; [lia | lia | change (2 ^ 54) with 18014398509481984; lia]).
  destruct (round_general q (- s) (new_location b ((a * 2 ^ s) mod b)))
    as [p [e2 [E [Hp [He2 Hv]]]]]; [lia | lia | lia |].
  pose proof (cut_53_digits q ltac:(lia) Hd1) as Hc.
  set (sh := Zdigits2 q - 53) in *.
  assert (HPs : 0 < 2 ^ sh) by (apply Z.pow_pos_nonneg; lia).
  pose proof (Z.mul_div_le q (2 ^ sh) HPs) as Hr1.
  pose proof (Z.mul_succ_div_gt q (2 ^ sh) HPs) as Hr2.
  set (t := q / 2 ^ sh) in *.
  exists (S754_finite false p e2). split; [| split].
  - unfold int_truediv.
    replace (b =? 0) with false by (symmetry; apply Z.eqb_neq; lia).
    replace (a <? 0) with false by (symmetry; apply Z.ltb_ge; lia).
    replace (b <? 0) with false by (symmetry; apply Z.ltb_ge; lia).
    rewrite !Z.abs_eq by lia. rewrite Hcore. cbn [xorb].
    fold q. rewrite E. reflexivity.
  - cbn [good]. split; [exact Hp | lia].
  - cbn [units].
    set (W := 2 ^ (200 - s)).
    assert (HW : 0 < W) by (apply Z.pow_pos_nonneg; lia).
    set (R := Zpos p * 2 ^ (e2 - - s)) in *.
    assert (E1 : b * (Zpos p * 2 ^ (e2 + 200)) = b * R * W).
    { unfold R, W. rewrite <- !Z.mul_assoc, <- Z.pow_add_r by lia.
      do 3 f_equal. lia. }
    assert (E2 : a * 2 ^ 200 = a * 2 ^ s * W).
    { unfold W. rewrite <- Z.mul_assoc, <- Z.pow_add_r by lia. do 2 f_equal. lia. }
    rewrite E1, E2, <- Z.mul_sub_distr_r, Z.abs_mul, (Z.abs_eq W) by lia.
    rewrite Z.mul_assoc. apply Z.mul_le_mono_nonneg_r; [lia |].
    (* the rounded mantissa is one of the two neighbours of the quotient *)
    assert (Hbt : 4503599627370496 * (2 ^ sh * b) <= a * 2 ^ s).
    { assert (4503599627370496 * 2 ^ sh <= t * 2 ^ sh)
        by (apply Z.mul_le_mono_nonneg_r; lia).
      assert (b * (4503599627370496 * 2 ^ sh) <= b * q)
        by (apply Z.mul_le_mono_nonneg_l; lia).
      lia. }
    assert (HbR : Z.abs (b * R - a * 2 ^ s) <= 2 ^ sh * b).
    { assert (b * (2 ^ sh * t) <= b * q) by (apply Z.mul_le_mono_nonneg_l; lia).
      assert (b * Z.succ q <= b * (2 ^ sh * Z.succ t))
        by (apply Z.mul_le_mono_nonneg_l; lia).
      destruct Hv as [Hv | Hv]; rewrite Hv; lia. }
    lia.
Qed.

Lemma good_weaken (lo hi lo' hi' : Z) (f : float) :
  lo' <= lo -> hi <= hi' -> good lo hi f -> good lo' hi' f.
Proof.
  intros Hl Hh. destruct f as [[] | [] | | [] m e]; cbn [good]; try tauto. lia.
Qed.

Lemma units_nonneg (f : float) : 0 <= units f.
Proof.
  destruct f as [[] | [] | | [] m e]; cbn [units]; try lia;
    assert (0 <= 2 ^ (e + 200)) by (apply Z.pow_nonneg; lia); lia.
Qed.

(** [int(balance * 100)] for a balance [lo / hi] of two positive counts:
    the truncated percentage, or one less when the percentage is a whole
    number. *)
Lemma percent_of_quotient (lo hi : Z) :
  0 < lo -> lo <= hi -> hi < 8796093022208 ->
  exists balance x r,
    int_truediv lo hi = Ok balance /\ fmul_int balance 100 = Ok x /\
    int_of_float x = Ok r /\
    (r = 100 * lo / hi \/
     (r = 100 * lo / hi - 1 /\ (100 * lo) mod hi = 0)).
Proof.
  intros Hlo Hle Hhi.
  destruct (int_truediv_units lo hi ltac:(lia) ltac:(lia)) as [f [Ef [Gf Hf]]].
  destruct (float_of_int_units 100 ltac:(lia)) as [c [Ec [Gc Hc]]].
  destruct (fmul_units (-104) (-1) (-52) 0 f c Gf Gc
              ltac:(lia) ltac:(lia) ltac:(lia) ltac:(lia)) as [Gx Hx].
  exists f, (fmul f c), (units (fmul f c) / 2 ^ 200).
  split; [exact Ef |]. split; [unfold fmul_int; rewrite Ec; reflexivity |].
  split; [apply (int_of_float_units _ _ _ Gx); lia |].
  pose proof (units_nonneg (fmul f c)) as Hx0.
  pose proof (units_nonneg f) as Hf0.
  set (Ux := units (fmul f c)) in *. set (Uf := units f) in *.
  rewrite Hc in Hx.
  change (2 ^ 200) with 1606938044258990275541962092341162602522202993782792835301376 in *.
  set (P := 1606938044258990275541962092341162602522202993782792835301376) in *.
  assert (HP : P = 1606938044258990275541962092341162602522202993782792835301376)
    by reflexivity.
  (* the product, freed from the common factor and scaled by [hi] *)
  assert (Hx1 : 4503599627370496 * Z.abs (Ux - 100 * Uf) <= 100 * Uf).
  { assert (E : Ux * P - Uf * (100 * P) = (Ux - 100 * Uf) * P) by ring.
    rewrite E, Z.abs_mul, (Z.abs_eq P) in Hx by lia.
    apply (Z.mul_le_mono_pos_r _ _ P); [lia |].
    rewrite <- Z.mul_assoc. lia. }
  assert (Hx2 : 4503599627370496 * Z.abs (hi * Ux - 100 * (hi * Uf)) <= 100 * (hi * Uf)).
  { assert (E : hi * Ux - 100 * (hi * Uf) = (Ux - 100 * Uf) * hi) by ring.
    rewrite E, Z.abs_mul, (Z.abs_eq hi) by lia.
    replace (100 * (hi * Uf)) with (100 * Uf * hi) by ring.
    rewrite Z.mul_assoc. apply Z.mul_le_mono_nonneg_r; lia. }
  pose proof (Z.div_mod (100 * lo) hi ltac:(lia)) as Hdm.
  pose proof (Z.mod_pos_bound (100 * lo) hi ltac:(lia)) as Hm.
  set (F := 100 * lo / hi) in *. set (m := (100 * lo) mod hi) in *.
  set (T := hi * Uf) in *. set (V := hi * Ux) in *.
  assert (HF0 : 0 <= F) by (apply Z.div_pos; lia).
  assert (HFP : hi * F * P = 100 * lo * P - m * P) by (rewrite Hdm; ring).
  set (FP := hi * F * P) in *.
  assert (B1 : FP - hi * P <= V) by lia.
  assert (B2 : V < FP + hi * P) by lia.
  assert (B3 : 0 < m -> FP <= V) by lia.
  assert (C1 : (F - 1) * P <= Ux).
  { apply (Z.mul_le_mono_pos_l _ _ hi); [lia |].
    replace (hi * ((F - 1) * P)) with (FP - hi * P) by (unfold FP; ring). exact B1. }
  assert (C2 : Ux < (F + 1) * P).
  { apply (Z.mul_lt_mono_pos_l hi); [lia |].
    replace (hi * ((F + 1) * P)) with (FP + hi * P) by (unfold FP; ring). exact B2. }
  assert (C3 : 0 < m -> F * P <= Ux).
  { intros H0. apply (Z.mul_le_mono_pos_l _ _ hi); [lia |].
    replace (hi * (F * P)) with FP by (unfold FP; ring). auto. }
  pose proof (Z.div_mod Ux P ltac:(lia)) as Hd. 
  pose proof (Z.mod_pos_bound Ux P ltac:(lia)) as Hd'.
  set (q := Ux / P) in *. set (t := Ux mod P) in *.
  assert (Q1 : F - 1 <= q) by nia.
  assert (Q2 : q <= F) by nia.
  destruct (Z.eq_dec m 0) as [Z0 | NZ].
  - destruct (Z.eq_dec q F); [left; assumption | right; split; [lia | exact Z0]].
  - left. assert (F <= q) by (specialize (C3 ltac:(lia)); nia). lia.
Qed.

Lemma abs_bound (k x y : Z) : 0 < k -> k * Z.abs x <= y -> - y <= k * x <= y.
Proof. lia. Qed.

(** One term [z * w] of the weighted sum, for a score [z] and a weight
    [w] between 1/8 and 1/2. *)
Lemma weighted_term (z : Z) (w : float) :
  0 <= z <= 100 -> good (-55) (-54) w ->
  exists t, int_fmul z w = Ok t /\ good (-55) 0 t /\
    - (z * units w) <= 4503599627370496 * (units t - z * units w) <= z * units w.
Proof.
  intros Hz Gw.
  destruct (float_of_int_units z ltac:(lia)) as [f [Ef [Gf Hf]]].
  destruct (fmul_units (-52) 0 (-55) (-54) f w Gf Gw
              ltac:(lia) ltac:(lia) ltac:(lia) ltac:(lia)) as [Gt Ht].
  exists (fmul f w). split; [unfold int_fmul; rewrite Ef; reflexivity |].
  split; [exact Gt |].
  pose proof (units_nonneg w) as Hw0.
  rewrite Hf in Ht. set (Ut := units (fmul f w)) in *. set (Uw := units w) in *.
  assert (HP : 0 < 2 ^ 200) by (apply Z.pow_pos_nonneg; lia).
  set (P := 2 ^ 200) in *.
  assert (E : Ut * P - z * P * Uw = (Ut - z * Uw) * P) by ring.
  rewrite E, Z.abs_mul, (Z.abs_eq P) in Ht by lia.
  apply abs_bound; [lia |].
  apply (Z.mul_le_mono_pos_r _ _ P); [lia |].
  rewrite <- Z.mul_assoc. replace (z * Uw * P) with (z * P * Uw) by ring. exact Ht.
Qed.

Lemma fadd_step (hi : Z) (x y : float) :
  good (-55) hi x -> good (-55) 0 y -> 0 <= hi <= 900 ->
  good (-55) (hi + 2) (fadd x y) /\
  - (units x + units y)
    <= 4503599627370496 * (units (fadd x y) - (units x + units y))
    <= units x + units y.
Proof.
  intros Gx Gy Hhi.
  destruct (fadd_units (-55) hi x y Gx (good_weaken (-55) 0 (-55) hi y ltac:(lia) ltac:(lia) Gy)
              ltac:(lia) ltac:(lia)) as [G H].
  split; [exact G | apply abs_bound; [lia | exact H]].
Qed.

Lemma good_lit_0_25 : good (-55) (-54) lit_0_25.
Proof. cbn. lia. Qed.

Lemma good_lit_0_20 : good (-55) (-54) lit_0_20.
Proof. cbn. lia. Qed.

Lemma good_lit_0_15 : good (-55) (-54) lit_0_15.
Proof. cbn. lia. Qed.

(** The weighted sum of five scores between 0 and 100: the exact sum cut
    to an integer, or one less when the exact sum is a whole number. *)
Lemma weighted_overall_value (c a s k r : Z) :
  0 <= c <= 100 -> 0 <= a <= 100 -> 0 <= s <= 100 -> 0 <= k <= 100 ->
  0 <= r <= 100 ->
  exists o, weighted_overall c a s k r = Ok o /\ 0 <= o /\
    (o = exact_overall c a s k r \/
     (o = exact_overall c a s k r - 1 /\
      (weighted_hundredths c a s k r) mod 100 = 0)).
Proof.
  intros Hc Ha Hs Hk Hr.
  destruct (weighted_term c lit_0_25 Hc good_lit_0_25) as [tc [Ec [Gc Bc]]].
  destruct (weighted_term a lit_0_20 Ha good_lit_0_20) as [ta [Ea [Ga Ba]]].
  destruct (weighted_term s lit_0_20 Hs good_lit_0_20) as [ts [Es [Gs Bs]]].
  destruct (weighted_term k lit_0_15 Hk good_lit_0_15) as [tk [Ek [Gk Bk]]].
  destruct (weighted_term r lit_0_20 Hr good_lit_0_20) as [tr [Er [Gr Br]]].
  destruct (fadd_step 0 tc ta Gc Ga ltac:(lia)) as [G1 B1].
  destruct (fadd_step 2 _ ts G1 Gs ltac:(lia)) as [G2 B2].
  destruct (fadd_step 4 _ tk G2 Gk ltac:(lia)) as [G3 B3].
  destruct (fadd_step 6 _ tr G3 Gr ltac:(lia)) as [G4 B4].
  pose proof (int_of_float_units (-55) 8 _ G4 ltac:(lia)) as Ei.
  exists (units (fadd (fadd (fadd (fadd tc ta) ts) tk) tr) / 2 ^ 200).
  split.
  { unfold weighted_overall. rewrite Ec, Ea, Es, Ek, Er. exact Ei. }
  clear Ec Ea Es Ek Er Ei G1 G2 G3 G4 Gc Ga Gs Gk Gr.
  pose proof (units_nonneg (fadd (fadd (fadd (fadd tc ta) ts) tk) tr)) as H0.
  set (S4 := units (fadd (fadd (fadd (fadd tc ta) ts) tk) tr)) in *.
  set (S3 := units (fadd (fadd (fadd tc ta) ts) tk)) in *.
  set (S2 := units (fadd (fadd tc ta) ts)) in *.
  set (S1 := units (fadd tc ta)) in *.
  set (Uc := units tc) in *. set (Ua := units ta) in *. set (Us := units ts) in *.
  set (Uk := units tk) in *. set (Ur := units tr) in *.
  change (units lit_0_25)
    with (9007199254740992 * 44601490397061246283071436545296723011960832) in *.
  change (units lit_0_20)
    with (7205759403792794 * 44601490397061246283071436545296723011960832) in *.
  change (units lit_0_15)
    with (5404319552844595 * 44601490397061246283071436545296723011960832) in *.
  change (2 ^ 200)
    with (36028797018963968 * 44601490397061246283071436545296723011960832).
  unfold exact_overall, weighted_hundredths.
  set (N := 25 * c + 20 * a + 20 * s + 15 * k + 20 * r).
  assert (HN : N = 5 * (5 * c + 4 * a + 4 * s + 3 * k + 4 * r)) by (unfold N; ring).
  set (n := 5 * c + 4 * a + 4 * s + 3 * k + 4 * r) in *.
  assert (HN' : 25 * c + 20 * a + 20 * s + 15 * k + 20 * r = N) by reflexivity.
  set (Q := 44601490397061246283071436545296723011960832) in *.
  assert (HQ : Q = 44601490397061246283071436545296723011960832) by reflexivity.
  (* the computed sum against the exact one, in units *)
  assert (Blo : N * (36028797018963968 * Q) - 36028797018963968 * Q
                <= 100 * S4) by lia.
  assert (Bhi : 100 * S4 <= N * (36028797018963968 * Q) + 36028797018963968 * Q)
    by lia.
  clear Bc Ba Bs Bk Br B1 B2 B3 B4.
  set (P := 36028797018963968 * Q) in *.
  assert (HP : 0 < P) by (unfold P; lia).
  clearbody P. clear HQ. clearbody N.
  pose proof (Z.div_mod S4 P ltac:(lia)) as Hd.
  pose proof (Z.mod_pos_bound S4 P HP) as Hd'.
  set (o := S4 / P) in *. set (t := S4 mod P) in *.
  pose proof (Z.div_mod N 100 ltac:(lia)) as Hq.
  pose proof (Z.mod_pos_bound N 100 ltac:(lia)) as Hq'.
  set (q := N / 100) in *. set (m := N mod 100) in *.
  clearbody o t q m.
  assert (O0 : 0 <= o) by nia.
  split; [exact O0 |].
  assert (Hm : m = 0 \/ 5 <= m <= 95) by lia.
  assert (O1 : q - 1 <= o) by nia.
  assert (O2 : o <= q) by nia.
  destruct Hm as [-> | Hm].
  - destruct (Z.eq_dec o q); [left; assumption | right; split; [lia | reflexivity]].
  - left. assert (q <= o) by nia. lia.
Qed.

Lemma floor_percent_range (c n : Z) :
  0 <= c <= n -> 0 <= floor_percent c (Z.max n 1) <= 100.
Proof.
  intros H. unfold floor_percent. split.
  - apply Z.div_pos; lia.
  - apply Z.div_le_upper_bound; lia.
Qed.

(** [reciprocity] on the counts of a conversation that is not empty. *)
Lemma reciprocity_value (total h a : Z) :
  0 < total -> 0 <= h < 8796093022208 -> 0 <= a < 8796093022208 ->
  exists r, reciprocity total h a = Ok r /\ 0 <= r <= 100 /\
    (r = floor_percent (Z.min h a) (Z.max (Z.max h a) 1) \/
     (r = floor_percent (Z.min h a) (Z.max (Z.max h a) 1) - 1 /\
      (100 * Z.min h a) mod (Z.max (Z.max h a) 1) = 0)).
Proof.
  intros Ht Hh Ha. unfold reciprocity, floor_percent.
  replace (0 <? total) with true by (symmetry; apply Z.ltb_lt; lia).
  set (lo := Z.min h a). set (hi := Z.max (Z.max h a) 1).
  assert (Hlo : 0 <= lo <= hi) by (unfold lo, hi; lia).
  assert (Hhi : 0 < hi < 8796093022208) by (unfold hi; lia).
  destruct (Z.eq_dec lo 0) as [E0 | NE].
  - rewrite E0, (int_truediv_zero hi) by lia.
    exists 0. split; [reflexivity |]. split; [lia |]. left. reflexivity.
  - destruct (percent_of_quotient lo hi) as [b [x [r [Eb [Ex [Er Hr]]]]]];
      [lia | lia | lia |].
    exists r. rewrite Eb. cbn [bind]. rewrite Ex. cbn [bind].
    split; [exact Er |].
    assert (F0 : 0 <= 100 * lo / hi) by (apply Z.div_pos; lia).
    assert (F1 : 100 * lo / hi <= 100) by (apply Z.div_le_upper_bound; lia).
    split; [| exact Hr].
    destruct Hr as [-> | [-> Hm]]; [lia |].
    assert (0 < 100 * lo / hi); [| lia].
    apply Z.div_str_pos. split; [lia |].
    apply Z.divide_pos_le; [lia |]. apply Z.mod_divide; [lia | exact Hm].
Qed.

(** [aggregate] raises nothing below 2^43 turns, and what its scores are. *)
Lemma aggregate_value (ts : list Turn) :
  len ts < 8796093022208 ->
  let humans := filter is_human ts in
  exists an, aggregate ts = Ok an /\
    curiosity_score an =
      floor_percent (count_if curiosity_shown humans) (Z.max (len humans) 1) /\
    acknowledgment_score an =
      floor_percent (count_if acknowledgment_given humans) (Z.max (len humans) 1) /\
    space_score an =
      floor_percent (count_if space_given humans) (Z.max (len humans) 1) /\
    continuity_score an =
      floor_percent (count_if continuity_referenced humans) (Z.max (len humans) 1) /\
    0 <= reciprocity_score an <= 100 /\
    (let lo := Z.min (human_turns an) (ai_turns an) in
     let hi := Z.max (Z.max (human_turns an) (ai_turns an)) 1 in
     reciprocity_score an = floor_percent lo hi \/
     (reciprocity_score an = floor_percent lo hi - 1 /\ (100 * lo) mod hi = 0)) /\
    0 <= overall_score an /\
    (let exact := exact_overall (curiosity_score an) (acknowledgment_score an)
                    (space_score an) (continuity_score an) (reciprocity_score an) in
     overall_score an = exact \/
     (overall_score an = exact - 1 /\
      (weighted_hundredths (curiosity_score an) (acknowledgment_score an)
         (space_score an) (continuity_score an) (reciprocity_score an)) mod 100 = 0)).
Proof.
  intros Hlen humans.
  destruct ts as [| t0 ts'].
  { exists empty_analysis. split; [exact analyze_empty |].
    cbn. repeat split; try lia; left; reflexivity. }
  set (ts := t0 :: ts') in *.
  assert (Hpos : 0 < len ts) by (unfold len, ts; cbn [List.length]; lia).
  assert (Hh : 0 <= len humans <= len ts).
  { unfold len, humans. pose proof (filter_length_le is_human ts). lia. }
  assert (Ha : 0 <= len (filter is_ai ts) <= len ts).
  { unfold len. pose proof (filter_length_le is_ai ts). lia. }
  unfold aggregate. fold humans.
  rewrite !(marker_score_floor _ humans) by lia. cbn [bind].
  destruct (reciprocity_value (len ts) (len humans) (len (filter is_ai ts)))
    as [r [Er [Rr Hr]]]; [lia | lia | lia |].
  rewrite Er. cbn [bind].
  pose proof (floor_percent_range _ _ (count_if_bounds curiosity_shown humans)) as Rc.
  pose proof (floor_percent_range _ _ (count_if_bounds acknowledgment_given humans)) as Ra.
  pose proof (floor_percent_range _ _ (count_if_bounds space_given humans)) as Rs.
  pose proof (floor_percent_range _ _ (count_if_bounds continuity_referenced humans)) as Rk.
  destruct (weighted_overall_value _ _ _ _ r Rc Ra Rs Rk Rr) as [o [Eo [O0 Ho]]].
  rewrite Eo. cbn [bind].
  eexists. split; [reflexivity |].
  cbn [curiosity_score acknowledgment_score space_score continuity_score
       reciprocity_score overall_score human_turns ai_turns].
  repeat (split; [first [reflexivity | assumption | lia] |]). exact Ho.
Qed.

End ScaledDoubles.

(* ================================================================== *)
(** ** What the scores of an analysis are *)

(** X5.  [analyze_conversation] raises nothing on a conversation of fewer
    than 2^43 turns, whatever the turns hold, and each of its six scores
    lies between 0 and 100. *)
Theorem analysis_scores_in_range (turns : list Turn) :
  (len turns < 8796093022208 ->
   exists an, analyze_conversation turns = Ok an /\
     0 <= overall_score an <= 100 /\
     0 <= curiosity_score an <= 100 /\
     0 <= reciprocity_score an <= 100 /\
     0 <= acknowledgment_score an <= 100 /\
     0 <= space_score an <= 100 /\
     0 <= continuity_score an <= 100)%Z.
Proof.
  intros Hlen. unfold analyze_conversation.
  assert (Hlen' : (len (annotate turns) < 8796093022208)%Z)
    by (unfold len, annotate in *; now rewrite annotate_from_length).
  destruct (aggregate_value (annotate turns) Hlen')
    as [an [E [Hc [Ha [Hs [Hk [Rr [_ [O0 Ho]]]]]]]]].
  set (humans := filter is_human (annotate turns)) in *.
  pose proof (floor_percent_range _ _ (count_if_bounds curiosity_shown humans)) as Rc.
  pose proof (floor_percent_range _ _ (count_if_bounds acknowledgment_given humans)) as Ra.
  pose proof (floor_percent_range _ _ (count_if_bounds space_given humans)) as Rs.
  pose proof (floor_percent_range _ _ (count_if_bounds continuity_referenced humans)) as Rk.
  rewrite <- Hc in Rc. rewrite <- Ha in Ra. rewrite <- Hs in Rs. rewrite <- Hk in Rk.
  exists an. split; [exact E |].
  cbv zeta in Ho. unfold exact_overall, weighted_hundredths in Ho.
  assert ((25 * curiosity_score an + 20 * acknowledgment_score an + 20 * space_score an
           + 15 * continuity_score an + 20 * reciprocity_score an <= 100 * 100)%Z) by lia.
  assert (((25 * curiosity_score an + 20 * acknowledgment_score an + 20 * space_score an
            + 15 * continuity_score an + 20 * reciprocity_score an) / 100 <= 100)%Z)
    by (apply Z.div_le_upper_bound; lia).
  assert (Hov : (overall_score an <= 100)%Z) by (destruct Ho as [-> | [-> _]]; lia).
  repeat split; lia.
Qed.

Lemma analysis_scores_in_range_witness :
  (len talk1 < 8796093022208 /\
   exists an, analyze_conversation talk1 = Ok an /\
     0 <= overall_score an <= 100 /\
     0 <= curiosity_score an <= 100 /\
     0 <= reciprocity_score an <= 100 /\
     0 <= acknowledgment_score an <= 100 /\
     0 <= space_score an <= 100 /\
     0 <= continuity_score an <= 100)%Z.
Proof. split; [reflexivity | apply (analysis_scores_in_range talk1); reflexivity]. Defined.

(** X6.  Each of the four marker scores of an analysis is the truncated
    percentage 100 * n / max(h, 1), with h the number of human turns and
    n the number of human turns whose marker is set once the turns are
    annotated: the division and the truncation lose nothing. *)
Theorem marker_scores_are_percentages (turns : list Turn) :
  (len turns < 8796093022208 ->
   let humans := filter is_human (annotate turns) in
   exists an, analyze_conversation turns = Ok an /\
     human_turns an = len humans /\
     curiosity_score an =
       100 * count_if curiosity_shown humans / Z.max (human_turns an) 1 /\
     acknowledgment_score an =
       100 * count_if acknowledgment_given humans / Z.max (human_turns an) 1 /\
     space_score an =
       100 * count_if space_given humans / Z.max (human_turns an) 1 /\
     continuity_score an =
       100 * count_if continuity_referenced humans / Z.max (human_turns an) 1)%Z.
Proof.
  intros Hlen humans. unfold analyze_conversation.
  assert (Hlen' : (len (annotate turns) < 8796093022208)%Z)
    by (unfold len, annotate in *; now rewrite annotate_from_length).
  destruct (aggregate_value (annotate turns) Hlen')
    as [an [E [Hc [Ha [Hs [Hk _]]]]]].
  destruct (aggregate_lists _ _ E) as [_ [_ [_ [_ [Hh _]]]]].
  fold humans in Hc, Ha, Hs, Hk, Hh. unfold floor_percent in *.
  exists an. rewrite Hh. repeat split; assumption.
Qed.

Lemma marker_scores_are_percentages_witness :
  (len talk1 < 8796093022208 /\
   let humans := filter is_human (annotate talk1) in
   exists an, analyze_conversation talk1 = Ok an /\
     human_turns an = len humans /\
     curiosity_score an =
       100 * count_if curiosity_shown humans / Z.max (human_turns an) 1 /\
     acknowledgment_score an =
       100 * count_if acknowledgment_given humans / Z.max (human_turns an) 1 /\
     space_score an =
       100 * count_if space_given humans / Z.max (human_turns an) 1 /\
     continuity_score an =
       100 * count_if continuity_referenced humans / Z.max (human_turns an) 1)%Z.
Proof. split; [reflexivity | apply (marker_scores_are_percentages talk1); reflexivity]. Defined.

(** X7.  The reciprocity score of an analysis is the truncated percentage
    100 * min(h, a) / max(h, a, 1) of its human and ai turn counts, or one
    less than it; one less only when the percentage is a whole number. *)
Theorem reciprocity_is_percentage_or_one_less (turns : list Turn) :
  (len turns < 8796093022208 ->
   exists an, analyze_conversation turns = Ok an /\
     let lo := Z.min (human_turns an) (ai_turns an) in
     let hi := Z.max (Z.max (human_turns an) (ai_turns an)) 1 in
     reciprocity_score an = 100 * lo / hi \/
     (reciprocity_score an = 100 * lo / hi - 1 /\ (100 * lo) mod hi = 0))%Z.
Proof.
  intros Hlen. unfold analyze_conversation.
  assert (Hlen' : (len (annotate turns) < 8796093022208)%Z)
    by (unfold len, annotate in *; now rewrite annotate_from_length).
  destruct (aggregate_value (annotate turns) Hlen')
    as [an [E [_ [_ [_ [_ [_ [Hr _]]]]]]]].
  exists an. split; [exact E | exact Hr].
Qed.

Lemma reciprocity_is_percentage_or_one_less_witness :
  (len talk1 < 8796093022208 /\
   exists an, analyze_conversation talk1 = Ok an /\
     let lo := Z.min (human_turns an) (ai_turns an) in
     let hi := Z.max (Z.max (human_turns an) (ai_turns an)) 1 in
     reciprocity_score an = 100 * lo / hi \/
     (reciprocity_score an = 100 * lo / hi - 1 /\ (100 * lo) mod hi = 0))%Z.
Proof.
  split; [reflexivity | apply (reciprocity_is_percentage_or_one_less talk1); reflexivity].
Defined.

(** X8.  The overall score of an analysis is the weighted sum
    (25 c + 20 a + 20 s + 15 k + 20 r) / 100 of its five other scores cut
    to an integer, or one less than it; one less only when the weighted
    sum is a whole number. *)
Theorem overall_is_weighted_sum_or_one_less (turns : list Turn) :
  (len turns < 8796093022208 ->
   exists an, analyze_conversation turns = Ok an /\
     let hundredths :=
       25 * curiosity_score an + 20 * acknowledgment_score an +
       20 * space_score an + 15 * continuity_score an +
       20 * reciprocity_score an in
     overall_score an = hundredths / 100 \/
     (overall_score an = hundredths / 100 - 1 /\ hundredths mod 100 = 0))%Z.
Proof.
  intros Hlen. unfold analyze_conversation.
  assert (Hlen' : (len (annotate turns) < 8796093022208)%Z)
    by (unfold len, annotate in *; now rewrite annotate_from_length).
  destruct (aggregate_value (annotate turns) Hlen')
    as [an [E [_ [_ [_ [_ [_ [_ [_ Ho]]]]]]]]].
  exists an. split; [exact E | exact Ho].
Qed.

Lemma overall_is_weighted_sum_or_one_less_witness :
  (len talk1 < 8796093022208 /\
   exists an, analyze_conversation talk1 = Ok an /\
     let hundredths :=
       25 * curiosity_score an + 20 * acknowledgment_score an +
       20 * space_score an + 15 * continuity_score an +
       20 * reciprocity_score an in
     overall_score an = hundredths / 100 \/
     (overall_score an = hundredths / 100 - 1 /\ hundredths mod 100 = 0))%Z.
Proof.
  split; [reflexivity | apply (overall_is_weighted_sum_or_one_less talk1); reflexivity].
Defined.

(* ================================================================== *)
(** ** The counts and the lists of an analysis *)

Lemma annotate_from_count (m : Turn -> bool) (ts : list Turn) (p : option Turn) :
  (forall t q, m (analyze_turn t q) = m t) ->
  List.length (filter m (annotate_from p ts)) = List.length (filter m ts).
Proof.
  intros Hm. revert p. induction ts as [| t ts IH]; intros p; [reflexivity |].
  cbn [annotate_from filter]. rewrite Hm.
  destruct (m t); cbn [List.length]; now rewrite IH.
Qed.


Lemma analysis_total (turns : list Turn) :
  (len turns < 8796093022208)%Z -> exists an, analyze_conversation turns = Ok an.
Proof.
  intros Hlen. unfold analyze_conversation.
  assert (Hlen' : (len (annotate turns) < 8796093022208)%Z)
    by (unfold len, annotate in *; now rewrite annotate_from_length).
  destruct (aggregate_value (annotate turns) Hlen') as [an [E _]].
  now exists an.
Qed.

(** X9.  The three counts of an analysis follow the speakers of the turns
    passed in: all turns, those of speaker ["human"] and those of speaker
    ["ai"]; a turn of any other speaker is counted in the first only. *)
Theorem turn_counts_follow_speakers (turns : list Turn) :
  (len turns < 8796093022208 ->
   exists an, analyze_conversation turns = Ok an /\
     turn_count an = len turns /\
     human_turns an = len (filter is_human turns) /\
     ai_turns an = len (filter is_ai turns) /\
     human_turns an + ai_turns an + len (filter (fun t => negb (is_human t || is_ai t)) turns)
       = turn_count an)%Z.
Proof.
  intros Hlen.
  destruct (analysis_total turns Hlen) as [an E].
  exists an. split; [exact E |].
  destruct (aggregate_lists _ _ E) as [_ [_ [_ [Ht [Hh Ha]]]]].
  rewrite Ht, Hh, Ha. unfold len, annotate.
  rewrite annotate_from_length.
  rewrite !annotate_from_count
    by (intros; first [apply analyze_turn_is_human | apply analyze_turn_is_ai]).
  repeat split.
  clear. induction turns as [| t ts IH]; [reflexivity |].
  cbn [filter]. pose proof (human_not_ai t) as H1.
  destruct (is_human t) eqn:Eh; [rewrite (H1 eq_refl) |];
    destruct (is_ai t) eqn:Ea; cbn [orb negb List.length]; lia.
Qed.

Lemma turn_counts_follow_speakers_witness :
  (len talk1 < 8796093022208 /\
   exists an, analyze_conversation talk1 = Ok an /\
     turn_count an = len talk1 /\
     human_turns an = len (filter is_human talk1) /\
     ai_turns an = len (filter is_ai talk1) /\
     human_turns an + ai_turns an + len (filter (fun t => negb (is_human t || is_ai t)) talk1)
       = turn_count an)%Z.
Proof. split; [reflexivity | apply (turn_counts_follow_speakers talk1); reflexivity]. Defined.



(* ================================================================== *)
(** ** What the parser keeps of a label line *)

(** [\s*] at the end of a pattern takes all the white space in front. *)
Lemma bt_star_space (ic : bool) (n : nat) (s : string) :
  Re.bt ic n (Re.Star Re.Space) s Some = Some (PyStr.lstrip s).
Proof.
  cbn [Re.bt].
  assert (H : (String.length s <= String.length s)%nat) by lia.
  revert H. generalize (String.length s) at 2 3. intros fuel. revert s.
  induction fuel as [| fuel IH]; intros s H.
  - destruct s; [reflexivity | cbn in H; lia].
  - destruct s as [| c s]; [reflexivity |].
    cbn [PyStr.lstrip]. destruct (PyStr.isspace c); [| reflexivity].
    replace (String.length s <? String.length (String c s))%nat with true
      by (symmetry; apply Nat.ltb_lt; cbn; lia).
    rewrite IH by (cbn in H; lia).
    reflexivity.
Qed.

Lemma skip_word_length (ic : bool) (w s r : string) :
  skip_word ic w s = Some r ->
  String.length s = (String.length w + String.length r)%nat.
Proof.
  revert s. induction w as [| p w IH]; intros s H.
  - cbn in H. injection H as ->. reflexivity.
  - destruct s as [| c s]; cbn [skip_word] in H; [discriminate |].
    destruct (Re.chr_matches ic p c); [| discriminate].
    cbn [String.length]. now rewrite (IH _ H).
Qed.

Lemma after_label_length (ws : list string) (s r : string) :
  after_label ws s = Some r -> (String.length r < String.length s)%nat.
Proof.
  unfold after_label. induction ws as [| w ws IH]; cbn [first_some]; [discriminate |].
  destruct (skip_word true w s) as [rest |] eqn:E1; [| exact IH].
  destruct (skip_word true ":" rest) as [r' |] eqn:E2; [| exact IH].
  intros H. injection H as <-.
  apply skip_word_length in E1. apply skip_word_length in E2.
  cbn [String.length] in E2. lia.
Qed.

Lemma lstrip_length (s : string) :
  (String.length (PyStr.lstrip s) <= String.length s)%nat.
Proof.
  induction s as [| c s IH]; [reflexivity |].
  cbn [PyStr.lstrip]. destruct (PyStr.isspace c); cbn [String.length]; lia.
Qed.

(** A pattern that opens with [^] finds nothing past the start of the
    subject, so [re.sub] keeps what is there. *)
Lemma sub_from_past_start (ic : bool) (n : nat) (r : Re.regex) (fuel : nat) (s : string) :
  (String.length s < n)%nat ->
  Re.sub_from ic n (Re.Seq Re.Bol r) fuel s = s.
Proof.
  revert s. induction fuel as [| fuel IH]; intros s H; [reflexivity |].
  cbn [Re.sub_from Re.bt].
  replace (String.length s =? n)%nat with false
    by (symmetry; apply Nat.eqb_neq; lia).
  destruct s as [| c s]; [reflexivity |].
  rewrite IH by (cbn in H; lia). reflexivity.
Qed.

Lemma first_some_map {A B : Type} (g : A -> B) (f : string -> option A)
  (ws : list string) :
  first_some (fun w => option_map g (f w)) ws = option_map g (first_some f ws).
Proof.
  induction ws as [| w ws IH]; [reflexivity |].
  cbn [first_some]. destruct (f w); [reflexivity | exact IH].
Qed.

(** The pattern [^(w1|...|wn):\s*] at the start of a subject. *)
Lemma label_ws_match (ws : list string) (s : string) :
  ws <> [] -> Forall (fun w => w <> EmptyString) ws ->
  Re.bt true (String.length s)
    (Re.Seq Re.Bol (Re.Seq (words ws) (Re.Seq (Re.Chr ":") (Re.Star Re.Space))))
    s Some =
  option_map PyStr.lstrip (after_label ws s).
Proof.
  intros Hne Hall. unfold after_label.
  cbn [Re.bt]. rewrite Nat.eqb_refl, (bt_words _ _ _ _ _ Hne Hall).
  rewrite <- first_some_map. apply first_some_ext. intros w.
  destruct (skip_word true w s) as [[| c r] |]; [reflexivity | | reflexivity].
  cbn [skip_word]. destruct (Re.chr_matches true ":" c); [| reflexivity].
  cbn [option_map]. exact (bt_star_space true (String.length s) r).
Qed.

(** [re.sub] of that pattern by the empty string. *)
Lemma label_ws_sub (ws : list string) (s : string) :
  ws <> [] -> Forall (fun w => w <> EmptyString) ws ->
  Re.sub_empty true
    (Re.Seq Re.Bol (Re.Seq (words ws) (Re.Seq (Re.Chr ":") (Re.Star Re.Space)))) s =
  match after_label ws s with
  | Some r => PyStr.lstrip r
  | None => s
  end.
Proof.
  intros Hne Hall. unfold Re.sub_empty.
  cbn [Re.sub_from]. rewrite (label_ws_match ws s Hne Hall).
  destruct (after_label ws s) as [r |] eqn:E; cbn [option_map].
  - pose proof (after_label_length _ _ _ E) as L1.
    pose proof (lstrip_length r) as L2.
    replace (String.length (PyStr.lstrip r) <? String.length s)%nat with true
      by (symmetry; apply Nat.ltb_lt; lia).
    apply sub_from_past_start. lia.
  - destruct s as [| c s]; [reflexivity |].
    rewrite sub_from_past_start by (cbn; lia). reflexivity.
Qed.

Lemma human_label_ws_sub (s : string) :
  re_sub_ic human_label_ws s =
  match after_label human_words s with
  | Some r => PyStr.lstrip r
  | None => s
  end.
Proof.
  rewrite <- (label_ws_sub human_words s);
    [reflexivity | discriminate | exact words_nonempty_human].
Qed.

Lemma ai_label_ws_sub (s : string) :
  re_sub_ic ai_label_ws s =
  match after_label ai_words s with
  | Some r => PyStr.lstrip r
  | None => s
  end.
Proof.
  rewrite <- (label_ws_sub ai_words s);
    [reflexivity | discriminate | exact words_nonempty_ai].
Qed.

(** X11.  One iteration of the parsing loop on an ASCII line, without the
    regular expressions: a trimmed line that starts, in any letter case, with one
    of the words Human, User, You and a colon opens a human turn, one
    that starts with AI, Assistant, Bot, Claude, GPT or Clio and a colon
    opens an ai turn, the human words tried first; the text kept is what
    follows the colon without the white space in front.  Any other line
    that is not blank is added to the open turn. *)
Theorem parse_line_by_words (st : parse_state) (raw : string) :
  is_ascii raw = true ->
  parse_line st raw =
  match PyStr.strip raw with
  | EmptyString => st
  | line =>
      match after_label human_words line, after_label ai_words line with
      | Some r, _ => mkParseState (flush st) (Some "human") [PyStr.lstrip r]
      | None, Some r => mkParseState (flush st) (Some "ai") [PyStr.lstrip r]
      | None, None =>
          mkParseState (turns st) (current_speaker st) (current_text st ++ [line])
      end
  end.
Proof.
  intros _.
  unfold parse_line. destruct (PyStr.strip raw) as [| c line]; [reflexivity |].
  rewrite human_label_words, ai_label_words, human_label_ws_sub, ai_label_ws_sub.
  destruct (after_label human_words (String c line)); [reflexivity |].
  destruct (after_label ai_words (String c line)); reflexivity.
Qed.

Lemma parse_line_by_words_witness :
  is_ascii "  user:   hello there " = true /\
  parse_line (mkParseState [] (Some "ai") ["ok"]) "  user:   hello there " =
  mkParseState [new_Turn "ai" "ok"] (Some "human") ["hello there"].
Proof.
  split; [reflexivity |].
  rewrite (parse_line_by_words _ "  user:   hello there " eq_refl). reflexivity.
Defined.

(* ================================================================== *)
(** ** Parsing a transcript written from turns *)

Lemma rstrip_length (s : string) :
  (String.length (PyStr.rstrip s) <= String.length s)%nat.
Proof.
  induction s as [| c s IH]; [reflexivity |].
  cbn [PyStr.rstrip]. destruct (PyStr.rstrip s) as [| d r].
  - destruct (PyStr.isspace c); cbn [String.length]; lia.
  - cbn [String.length] in *. lia.
Qed.

Lemma lstrip_cases (s : string) :
  PyStr.lstrip s = s \/ (String.length (PyStr.lstrip s) < String.length s)%nat.
Proof.
  destruct s as [| c s]; [now left |].
  cbn [PyStr.lstrip]. destruct (PyStr.isspace c); [right | now left].
  pose proof (lstrip_length s). cbn [String.length]. lia.
Qed.

Lemma strip_parts (s : string) :
  PyStr.strip s = s -> PyStr.lstrip s = s /\ PyStr.rstrip s = s.
Proof.
  unfold PyStr.strip. intros H.
  destruct (lstrip_cases s) as [E | L].
  - rewrite E in H. now split.
  - pose proof (rstrip_length (PyStr.lstrip s)) as R. rewrite H in R. lia.
Qed.

Lemma lstrip_app (s x : string) :
  s <> EmptyString -> PyStr.lstrip s = s -> PyStr.lstrip (s ++ x) = s ++ x.
Proof.
  destruct s as [| c s]; [congruence |]. intros _ H.
  cbn [append PyStr.lstrip] in *.
  destruct (PyStr.isspace c); [| reflexivity].
  pose proof (lstrip_length s) as L. rewrite H in L. cbn [String.length] in L. lia.
Qed.

Lemma rstrip_app (x s : string) :
  s <> EmptyString -> PyStr.rstrip s = s -> PyStr.rstrip (x ++ s) = x ++ s.
Proof.
  intros Hne H. induction x as [| c x IH]; [exact H |].
  cbn [append PyStr.rstrip]. rewrite IH.
  destruct (x ++ s) as [| d r] eqn:E; [| reflexivity].
  destruct x; [cbn in E; congruence | discriminate].
Qed.

Lemma has_char_app (c : ascii) (a b : string) :
  has_char c (a ++ b) = has_char c a || has_char c b.
Proof.
  induction a as [| d a IH]; [reflexivity |].
  cbn [append has_char]. now rewrite IH, orb_assoc.
Qed.

Lemma split_one (c : ascii) (a : string) :
  has_char c a = false -> PyStr.split c a = [a].
Proof.
  induction a as [| d a IH]; [reflexivity |].
  cbn [has_char PyStr.split]. intros H. apply orb_false_iff in H as [H1 H2].
  rewrite H1, (IH H2). reflexivity.
Qed.

Lemma split_app (c : ascii) (a rest : string) :
  has_char c a = false ->
  PyStr.split c (a ++ String c rest) = a :: PyStr.split c rest.
Proof.
  induction a as [| d a IH]; intros H.
  - cbn [append PyStr.split]. now rewrite Ascii.eqb_refl.
  - cbn [has_char] in H. apply orb_false_iff in H as [H1 H2].
    cbn [append PyStr.split]. rewrite H1, (IH H2). reflexivity.
Qed.

Lemma split_join (ls : list string) :
  ls <> [] -> Forall (fun l => has_char PyStr.newline l = false) ls ->
  PyStr.split PyStr.newline (PyStr.join nl ls) = ls.
Proof.
  induction ls as [| l ls IH]; [congruence |]. intros _ H.
  inversion H as [| ? ? Hl Hls]; subst.
  destruct ls as [| l2 ls]; [exact (split_one _ _ Hl) |].
  change (PyStr.join nl (l :: l2 :: ls))
    with (l ++ String PyStr.newline (PyStr.join nl (l2 :: ls))).
  rewrite (split_app _ _ _ Hl), IH; [reflexivity | discriminate | exact Hls].
Qed.

Lemma join_nonempty (ls : list string) :
  ls <> [] -> Forall (fun l => l <> EmptyString) ls ->
  PyStr.join nl ls <> EmptyString.
Proof.
  destruct ls as [| l ls]; [congruence |]. intros _ H.
  inversion H as [| ? ? Hl _]; subst.
  destruct ls as [| l2 ls]; [exact Hl |].
  change (PyStr.join nl (l :: l2 :: ls)) with (l ++ nl ++ PyStr.join nl (l2 :: ls)).
  destruct l; [congruence | discriminate].
Qed.

Lemma rstrip_join (ls : list string) :
  ls <> [] -> Forall (fun l => l <> EmptyString /\ PyStr.rstrip l = l) ls ->
  PyStr.rstrip (PyStr.join nl ls) = PyStr.join nl ls.
Proof.
  induction ls as [| l ls IH]; [congruence |]. intros _ H.
  inversion H as [| ? ? [Hl1 Hl2] Hls]; subst.
  destruct ls as [| l2 ls]; [exact Hl2 |].
  change (PyStr.join nl (l :: l2 :: ls))
    with (l ++ nl ++ PyStr.join nl (l2 :: ls)).
  rewrite <- append_assoc_str. apply rstrip_app.
  - apply join_nonempty; [discriminate |].
    eapply Forall_impl; [| exact Hls]. now intros a [Ha _].
  - apply IH; [discriminate | exact Hls].
Qed.

Lemma line_of_cases (t : Turn) :
  human_or_ai t ->
  (speaker t = "human" /\ line_of t = "Human: " ++ text t) \/
  (speaker t = "ai" /\ line_of t = "AI: " ++ text t).
Proof.
  unfold line_of, label_of, is_human.
  intros [E | E]; rewrite E; [left | right]; split; reflexivity.
Qed.

Lemma line_of_clean (t : Turn) :
  human_or_ai t -> clean (text t) ->
  line_of t <> EmptyString /\ PyStr.strip (line_of t) = line_of t /\
  PyStr.rstrip (line_of t) = line_of t /\
  has_char PyStr.newline (line_of t) = false.
Proof.
  intros Hs [Hne [_ [Hst Hnl]]]. destruct (strip_parts _ Hst) as [_ Hr].
  assert (R : forall p, PyStr.rstrip (p ++ text t) = p ++ text t)
    by (intros p; now apply rstrip_app).
  destruct (line_of_cases t Hs) as [[_ ->] | [_ ->]].
  - split; [discriminate |]. split; [| split].
    + unfold PyStr.strip. change (PyStr.lstrip ("Human: " ++ text t))
        with ("Human: " ++ text t). apply R.
    + apply R.
    + rewrite has_char_app, Hnl. reflexivity.
  - split; [discriminate |]. split; [| split].
    + unfold PyStr.strip. change (PyStr.lstrip ("AI: " ++ text t))
        with ("AI: " ++ text t). apply R.
    + apply R.
    + rewrite has_char_app, Hnl. reflexivity.
Qed.

(** The loop on the line of a plain turn: the open turn is closed and
    the turn of the line opened. *)
Lemma parse_line_of (st : parse_state) (t : Turn) :
  plain_turn t ->
  parse_line st (line_of t) = mkParseState (flush st) (Some (speaker t)) [text t].
Proof.
  intros [Hs [_ Hc]].
  destruct (line_of_clean t Hs Hc) as [Hne [Hstrip _]].
  destruct Hc as [_ [_ [Hst _]]]. destruct (strip_parts _ Hst) as [Hl _].
  assert (Hbody :
    (if re_match_ic human_label (line_of t)
     then mkParseState (flush st) (Some "human") [re_sub_ic human_label_ws (line_of t)]
     else if re_match_ic ai_label (line_of t)
     then mkParseState (flush st) (Some "ai") [re_sub_ic ai_label_ws (line_of t)]
     else mkParseState (turns st) (current_speaker st)
            (current_text st ++ [line_of t])%list) =
    mkParseState (flush st) (Some (speaker t)) [text t]).
  { rewrite human_label_words, ai_label_words, human_label_ws_sub, ai_label_ws_sub.
    destruct (line_of_cases t Hs) as [[-> ->] | [-> ->]].
    - change (after_label human_words ("Human: " ++ text t))
        with (Some (String " " (text t))).
      cbn [PyStr.lstrip]. change (PyStr.isspace " ") with true. cbv iota.
      now rewrite Hl.
    - change (after_label human_words ("AI: " ++ text t)) with (@None string).
      change (after_label ai_words ("AI: " ++ text t))
        with (Some (String " " (text t))).
      cbn [PyStr.lstrip]. change (PyStr.isspace " ") with true. cbv iota.
      now rewrite Hl. }
  unfold parse_line. rewrite Hstrip.
  destruct (line_of t); [congruence | exact Hbody].
Qed.

Lemma flush_open (ts : list Turn) (t : Turn) :
  plain_turn t ->
  flush (mkParseState ts (Some (speaker t)) [text t]) = (ts ++ [t])%list.
Proof.
  intros [Hs [Hf _]]. unfold flush.
  cbn [current_speaker current_text turns PyStr.join].
  replace (speaker_set (Some (speaker t))) with (Some (speaker t))
    by (destruct Hs as [-> | ->]; reflexivity).
  unfold fresh, reset_markers in Hf. now rewrite <- Hf.
Qed.

Lemma parse_lines_of (ts : list Turn) (st : parse_state) :
  Forall plain_turn ts ->
  flush (fold_left parse_line (map line_of ts) st) = (flush st ++ ts)%list.
Proof.
  revert st. induction ts as [| t ts IH]; intros st H; cbn [map fold_left].
  - now rewrite app_nil_r.
  - inversion H as [| ? ? Ht Hts]; subst.
    rewrite (IH _ Hts), (parse_line_of st t Ht), (flush_open _ t Ht).
    now rewrite <- app_assoc.
Qed.

(** X12.  A transcript written from turns, one line [Human: text] or
    [AI: text] each, parses back to those turns, when each text is clean
    (ASCII, not empty, no white space at its ends, no line break) and the turns
    carry no marker: speakers, texts and order are recovered, whatever
    else the texts hold, labels included. *)
Theorem parse_transcript (ts : list Turn) :
  Forall plain_turn ts -> parse_conversation (transcript ts) = ts.
Proof.
  intros H. destruct ts as [| t0 ts']; [reflexivity |].
  set (ts := t0 :: ts') in *.
  assert (Hall : Forall (fun l => l <> EmptyString /\ PyStr.strip l = l /\
                                  PyStr.rstrip l = l /\
                                  has_char PyStr.newline l = false)
                        (map line_of ts)).
  { apply Forall_map. eapply Forall_impl; [| exact H].
    intros t [Hs [_ Hc]]. now apply line_of_clean. }
  assert (Hne : map line_of ts <> []) by discriminate.
  assert (Hstrip : PyStr.strip (transcript ts) = transcript ts).
  { unfold PyStr.strip, transcript.
    assert (L : PyStr.lstrip (PyStr.join nl (map line_of ts)) =
                PyStr.join nl (map line_of ts)).
    { unfold ts in Hall |- *. cbn [map] in Hall |- *.
      inversion Hall as [| l ls [Hl1 [Hl2 _]] _]; subst.
      destruct (strip_parts _ Hl2) as [Hl _].
      destruct (map line_of ts') as [| l2 ls]; [exact Hl |].
      change (PyStr.join nl (line_of t0 :: l2 :: ls))
        with (line_of t0 ++ nl ++ PyStr.join nl (l2 :: ls)).
      now apply lstrip_app. }
    rewrite L. apply rstrip_join; [exact Hne |].
    eapply Forall_impl; [| exact Hall]. now intros l [H1 [_ [H3 _]]]. }
  unfold parse_conversation, lines_of. rewrite Hstrip. unfold transcript.
  rewrite split_join; [| exact Hne |
    eapply Forall_impl; [| exact Hall]; now intros l [_ [_ [_ H4]]]].
  apply (parse_lines_of ts (mkParseState [] None []) H).
Qed.

Lemma parse_transcript_witness :
  Forall plain_turn talk2 /\ parse_conversation (transcript talk2) = talk2.
Proof.
  assert (H : Forall plain_turn talk2).
  { repeat constructor; try discriminate; try reflexivity;
      first [now left | now right]. }
  split; [exact H | exact (parse_transcript talk2 H)].
Defined.

(* ================================================================== *)
(** ** From a text to its report *)

Lemma split_length (c : ascii) (s : string) :
  (List.length (PyStr.split c s) <= S (String.length s))%nat.
Proof.
  induction s as [| d s IH]; [cbn; lia |].
  cbn [PyStr.split String.length].
  destruct (Ascii.eqb d c); [cbn [List.length]; lia |].
  destruct (PyStr.split c s) as [| p ps]; cbn [List.length] in *; lia.
Qed.

Lemma lines_of_length (txt : string) :
  (List.length (lines_of txt) <= S (String.length txt))%nat.
Proof.
  unfold lines_of, PyStr.strip.
  pose proof (split_length PyStr.newline (PyStr.rstrip (PyStr.lstrip txt))).
  pose proof (rstrip_length (PyStr.lstrip txt)).
  pose proof (lstrip_length txt). lia.
Qed.

Lemma parse_conversation_length (txt : string) :
  List.length (parse_conversation txt) = List.length (label_lines txt) /\
  (List.length (label_lines txt) <= S (String.length txt))%nat.
Proof.
  split; [exact (Forall2_length (parse_conversation_labels txt)) |].
  unfold label_lines.
  pose proof (filter_length_le is_label (map PyStr.strip (lines_of txt))) as H.
  rewrite length_map in H. pose proof (lines_of_length txt). lia.
Qed.

(** X13.  The pipeline of [main], parse then analyze then format, raises
    nothing on a text of fewer than 2^43 - 1 characters, whatever it
    holds.  The analysis it reports counts one turn per label line of the
    text, each of them a human or an ai turn. *)
Theorem text_is_reported (txt : string) :
  (Z.of_nat (String.length txt) < 8796093022207 ->
   exists an,
     run txt = Ok an /\ report_of txt = Ok (format_report an) /\
     turn_count an = len (label_lines txt) /\
     turn_count an = human_turns an + ai_turns an)%Z.
Proof.
  intros Hlen.
  destruct (parse_conversation_length txt) as [L1 L2].
  assert (Hb : (len (parse_conversation txt) < 8796093022208)%Z)
    by (unfold len; lia).
  destruct (analysis_total _ Hb) as [an E].
  exists an. split; [exact E |].
  split; [unfold report_of, run; rewrite E; reflexivity |].
  destruct (aggregate_lists _ _ E) as [_ [_ [_ [Ht [Hh Ha]]]]].
  rewrite Ht, Hh, Ha.
  assert (P2 : len (annotate (parse_conversation txt)) =
               (len (filter is_human (annotate (parse_conversation txt))) +
                len (filter is_ai (annotate (parse_conversation txt))))%Z)
    by (apply human_ai_partition, annotate_human_or_ai, parse_conversation_speakers).
  split; [| exact P2].
  unfold len, annotate. now rewrite annotate_from_length, L1.
Qed.

Lemma text_is_reported_witness :
  (Z.of_nat (String.length two_human_lines) < 8796093022207 /\
   exists an,
     run two_human_lines = Ok an /\
     report_of two_human_lines = Ok (format_report an) /\
     turn_count an = len (label_lines two_human_lines) /\
     turn_count an = human_turns an + ai_turns an)%Z.
Proof.
  split; [reflexivity | apply (text_is_reported two_human_lines); reflexivity].
Defined.
